(** * facebook_sdk.request: requests and batch requests

    A shallow embedding of [facebook_sdk/request.py].

    - Python scalars are the type [pyval]; [truthy], [py_str] and [py_eqb]
      are Python's [bool(x)], [str(x)] and [x == y] on them.
    - A [str] is a Rocq [string], read as the UTF-8 bytes of the text.
    - A [dict] with string keys is an association list in insertion order
      without repeated keys ([dict_set] keeps both properties).
    - [FacebookRequest] objects are mutable and shared: they live in a
      store [gmap loc FacebookRequest] and are named by their location.
    - Methods that mutate or raise run in the monad [M], which threads the
      store and stops at the first exception. *)

From Stdlib Require Import ZArith Ascii String List Lia Bool.
From stdpp Require Import base option list strings pretty gmap.

Local Open Scope string_scope.
Local Open Scope list_scope.
Local Open Scope Z_scope.

(** ** Python values *)

Module Py.

Inductive pyval : Type :=
| VNone
| VBool (b : bool)
| VInt (n : Z)
| VStr (s : string).

#[global] Instance pyval_eq_dec : EqDecision pyval.
Proof. solve_decision. Defined.

(** [bool(x)]: [None], [False], [0] and the empty string are false. *)
Definition truthy (v : pyval) : bool :=
  match v with
  | VNone => false
  | VBool b => b
  | VInt n => negb (n =? 0)
  | VStr s => negb (String.eqb s "")
  end.

(** [str(x)]. *)
Definition py_str (v : pyval) : string :=
  match v with
  | VNone => "None"
  | VBool true => "True"
  | VBool false => "False"
  | VInt n => pretty n
  | VStr s => s
  end.

(** [x == y]; [bool] is a subclass of [int], so [True == 1]. *)
Definition py_eqb (x y : pyval) : bool :=
  match x, y with
  | VNone, VNone => true
  | VBool a, VBool b => Bool.eqb a b
  | VInt a, VInt b => a =? b
  | VBool a, VInt b | VInt b, VBool a => (if a then 1 else 0) =? b
  | VStr a, VStr b => String.eqb a b
  | _, _ => false
  end.

(** [x != y]. *)
Definition py_neb (x y : pyval) : bool := negb (py_eqb x y).

(** [x is not None]. *)
Definition is_not_None (v : pyval) : bool :=
  match v with VNone => false | _ => true end.

End Py.
Export Py.

(** ** Dictionaries with string keys *)

Module Dict.

Definition dict (V : Type) : Type := list (string * V).

Section Ops.
Context {V : Type}.

Fixpoint get (k : string) (d : dict V) : option V :=
  match d with
  | [] => None
  | (k', v) :: d' => if String.eqb k k' then Some v else get k d'
  end.

(** [d[k] = v]: an existing key keeps its position, a new one goes last. *)
Fixpoint set (k : string) (v : V) (d : dict V) : dict V :=
  match d with
  | [] => [(k, v)]
  | (k', v') :: d' =>
      if String.eqb k k' then (k', v) :: d' else (k', v') :: set k v d'
  end.

(** [d.update(e)]. *)
Definition update (d e : dict V) : dict V :=
  fold_left (fun acc kv => set kv.1 kv.2 acc) e d.

(** [d.copy()]: mappings are values here, so the copy is the mapping. *)
Definition copy (d : dict V) : dict V := d.

Definition keys (d : dict V) : list string := map fst d.

Definition mem (k : string) (d : dict V) : bool :=
  match get k d with Some _ => true | None => false end.

(** [bool(d)]. *)
Definition nonempty (d : dict V) : bool :=
  match d with [] => false | _ => true end.
End Ops.

End Dict.

Abbreviation dict := Dict.dict.

(** ** Form encoding: [urllib.parse.urlencode]

    [urlencode] is the standard library's; it is embedded from its
    documented algorithm (Python 3.7 and later, where [~] is unreserved):
    every key and value goes through [str] and [quote_plus], the pairs are
    written [key=value] and joined with [&]. *)

Module Url.

Definition in_range (lo hi c : ascii) : bool :=
  (N_of_ascii lo <=? N_of_ascii c)%N && (N_of_ascii c <=? N_of_ascii hi)%N.

(** The characters [quote] never escapes: letters, digits and [_.-~]. *)
Definition always_safe (c : ascii) : bool :=
  in_range "A" "Z" c || in_range "a" "z" c || in_range "0" "9" c
  || Ascii.eqb c "_" || Ascii.eqb c "." || Ascii.eqb c "-" || Ascii.eqb c "~".

Definition hex_digit (n : N) : ascii :=
  if (n <? 10)%N then ascii_of_N (48 + n) else ascii_of_N (55 + n).

(** One byte of [quote_plus]: kept, turned into [+], or written [%XX]. *)
Definition quote_byte (c : ascii) : string :=
  if always_safe c then String c ""
  else if Ascii.eqb c " " then "+"
  else String "%" (String (hex_digit (N_of_ascii c / 16))
                     (String (hex_digit (N_of_ascii c mod 16)) "")).

Fixpoint quote_plus (s : string) : string :=
  match s with
  | EmptyString => EmptyString
  | String c t => quote_byte c +:+ quote_plus t
  end.

(** ['&'.join(l)]. *)
Fixpoint join (sep : string) (l : list string) : string :=
  match l with
  | [] => ""
  | [x] => x
  | x :: l' => x +:+ sep +:+ join sep l'
  end.

Definition encode_pair (kv : string * pyval) : string :=
  quote_plus kv.1 +:+ "=" +:+ quote_plus (py_str kv.2).

Definition urlencode (query : dict pyval) : string :=
  join "&" (map encode_pair query).

(** *** Form decoding

    The inverse direction, [urllib.parse.parse_qsl] with blank values kept:
    split at [&], drop empty fields, split each field at its first [=],
    turn [+] into a space and undo the [%XX] escapes. *)

Definition hex_val (c : ascii) : option N :=
  if in_range "0" "9" c then Some (N_of_ascii c - 48)%N
  else if in_range "A" "F" c then Some (N_of_ascii c - 55)%N
  else if in_range "a" "f" c then Some (N_of_ascii c - 87)%N
  else None.

Definition hex_pair (a b : ascii) : option ascii :=
  match hex_val a, hex_val b with
  | Some x, Some y => Some (ascii_of_N (16 * x + y))
  | _, _ => None
  end.

Fixpoint unquote (s : string) : string :=
  match s with
  | EmptyString => EmptyString
  | String c t =>
      if Ascii.eqb c "%" then
        match t with
        | String a (String b r) =>
            match hex_pair a b with
            | Some x => String x (unquote r)
            | None => String c (unquote t)
            end
        | _ => String c (unquote t)
        end
      else String c (unquote t)
  end.

(** [s.replace('+', ' ')]. *)
Fixpoint plus_to_space (s : string) : string :=
  match s with
  | EmptyString => EmptyString
  | String c t => String (if Ascii.eqb c "+" then " "%char else c) (plus_to_space t)
  end.

Definition unquote_plus (s : string) : string := unquote (plus_to_space s).

(** [s.split(sep)] for a one-character separator. *)
Fixpoint split (sep : ascii) (s : string) : list string :=
  match s with
  | EmptyString => [""]
  | String c t =>
      if Ascii.eqb c sep then "" :: split sep t
      else match split sep t with
           | p :: ps => String c p :: ps
           | [] => [String c ""]
           end
  end.

(** [s.split(sep, 1)]: the text before and after the first separator. *)
Fixpoint split_first (sep : ascii) (s : string) : option (string * string) :=
  match s with
  | EmptyString => None
  | String c t =>
      if Ascii.eqb c sep then Some ("", t)
      else match split_first sep t with
           | Some (a, b) => Some (String c a, b)
           | None => None
           end
  end.

Definition decode_field (f : string) : list (string * string) :=
  if String.eqb f "" then []
  else match split_first "=" f with
       | Some (k, v) => [(unquote_plus k, unquote_plus v)]
       | None => [(unquote_plus f, "")]
       end.

Definition parse_qsl (qs : string) : list (string * string) :=
  concat (map decode_field (split "&" qs)).

End Url.

(** ** Constants and helpers of the package *)

(** Modelled from the spec: the method names of [facebook_sdk.constants],
    which is not part of the sources at hand; the spec lists the methods
    as [GET], [POST] and [DELETE]. *)
Definition METHOD_GET : pyval := VStr "GET".
Definition METHOD_POST : pyval := VStr "POST".
Definition METHOD_DELETE : pyval := VStr "DELETE".

(** Modelled from the spec: [facebook_sdk.utils.force_slash_prefix], not
    part of the sources at hand: "if the string does not already start
    with [/], prepend one; never double a slash". *)
Definition force_slash_prefix (value : string) : string :=
  match value with
  | String "/" _ => value
  | _ => String "/" value
  end.

Definition MAX_REQUEST_BY_BATCH : nat := 50.

(** ** Objects and the store *)

Definition loc : Type := positive.

Module FacebookApp.
Record t : Type := mk { id : string; secret : string }.
End FacebookApp.

(** An entry of [FacebookBatchRequest.requests]: the dict
    [{'name': ..., 'request': ...}]. *)
Record entry : Type := Entry { name : string; request : loc }.

#[global] Instance entry_eq_dec : EqDecision entry.
Proof. solve_decision. Defined.

(** An instance of [FacebookRequest]. [requests] is [Some] exactly for
    the instances of the subclass [FacebookBatchRequest]. *)
Record FacebookRequest : Type := mkRequest {
  app : option FacebookApp.t;
  access_token : pyval;
  method : pyval;
  endpoint : string;
  graph_version : string;
  headers : dict pyval;
  _params : dict pyval;
  requests : option (list entry);
}.

Definition with_access_token (v : pyval) (o : FacebookRequest) : FacebookRequest :=
  mkRequest (app o) v (method o) (endpoint o) (graph_version o)
            (headers o) (_params o) (requests o).

Definition with_headers (v : dict pyval) (o : FacebookRequest) : FacebookRequest :=
  mkRequest (app o) (access_token o) (method o) (endpoint o) (graph_version o)
            v (_params o) (requests o).

Definition with_params (v : dict pyval) (o : FacebookRequest) : FacebookRequest :=
  mkRequest (app o) (access_token o) (method o) (endpoint o) (graph_version o)
            (headers o) v (requests o).

Definition with_requests (v : option (list entry)) (o : FacebookRequest) : FacebookRequest :=
  mkRequest (app o) (access_token o) (method o) (endpoint o) (graph_version o)
            (headers o) (_params o) v.

(** [FacebookRequest.__init__]: absent mappings default to empty ones and
    an absent version to the constant [DEFAULT_GRAPH_VERSION] of
    [facebook_sdk.constants], which is a parameter. *)
Definition request_init (DEFAULT_GRAPH_VERSION : string)
  (app : option FacebookApp.t) (access_token method : pyval) (endpoint : string)
  (params headers : option (dict pyval)) (graph_version : option string)
  : FacebookRequest :=
  let headers := match headers with None => [] | Some d => d end in
  let params := match params with None => [] | Some d => d end in
  let graph_version :=
    match graph_version with None => DEFAULT_GRAPH_VERSION | Some v => v end in
  mkRequest app access_token method endpoint graph_version headers params None.

(** ** FacebookRequest: the read-only properties *)

(** [FacebookRequest.params]. *)
Definition params (self : FacebookRequest) : dict pyval :=
  let params :=
    if py_neb (method self) METHOD_POST then Dict.copy (_params self) else [] in
  if truthy (access_token self)
  then Dict.update params [("access_token", VStr (py_str (access_token self)))]
  else params.

(** [FacebookRequest.post_params]; [None] is Python's [None]. *)
Definition post_params (self : FacebookRequest) : option (dict pyval) :=
  if py_eqb (method self) METHOD_POST then Some (Dict.copy (_params self))
  else None.

(** [FacebookRequest.url]. *)
Definition url (self : FacebookRequest) : string :=
  force_slash_prefix (graph_version self) +:+ force_slash_prefix (endpoint self).

(** [FacebookRequest.url_encode_body]: [urlencode(params) if params else None]. *)
Definition url_encode_body (self : FacebookRequest) : option string :=
  match post_params self with
  | Some params =>
      if Dict.nonempty params then Some (Url.urlencode params) else None
  | None => None
  end.

(** [FacebookRequest.add_headers] on the object's value: every mapping of
    the sequence is merged into the headers, later ones winning. *)
Definition add_headers (headers_list : list (dict pyval)) (self : FacebookRequest)
  : FacebookRequest :=
  fold_left (fun o header => with_headers (Dict.update (headers o) header) o)
            headers_list self.

(** ** The store monad *)

Inductive exn : Type :=
| FacebookSDKException (msg : string)
| AttributeError (attr : string)
| NoObject (l : loc).
  (* [NoObject]: a location outside the store; no Python reference denotes one. *)

Inductive outcome (A : Type) : Type :=
| Return (a : A)
| Raise (e : exn).
Arguments Return {A} a.
Arguments Raise {A} e.

Definition M (A : Type) : Type :=
  gmap loc FacebookRequest -> gmap loc FacebookRequest * outcome A.

#[global] Instance M_ret : MRet M := fun A a h => (h, Return a).

#[global] Instance M_bind : MBind M := fun A B f m h =>
  match m h with
  | (h', Return a) => f a h'
  | (h', Raise e) => (h', Raise e)
  end.

Definition raise {A : Type} (e : exn) : M A := fun h => (h, Raise e).

(** Reading an object through its reference. *)
Definition deref (l : loc) : M FacebookRequest := fun h =>
  match h !! l with
  | Some o => (h, Return o)
  | None => (h, Raise (NoObject l))
  end.

(** In-place mutation of the object at [l]. *)
Definition store_at (l : loc) (o : FacebookRequest) : M unit :=
  fun h => (<[l := o]> h, Return tt).

Definition modify (l : loc) (f : FacebookRequest -> FacebookRequest) : M unit :=
  o ← deref l; store_at l (f o).

(** A [for] loop with the running index of [enumerate]. *)
Definition for_enumerate {A : Type} (body : Z -> A -> M unit)
  : list A -> Z -> M unit :=
  fix loop (l : list A) (index : Z) : M unit :=
    match l with
    | [] => mret tt
    | x :: l' => body index x ;; loop l' (index + 1)
    end.

(** A [for] loop over the items of a mapping. *)
Definition for_items {K A : Type} (body : K -> A -> M unit)
  : list (K * A) -> M unit :=
  fix loop (l : list (K * A)) : M unit :=
    match l with
    | [] => mret tt
    | (k, x) :: l' => body k x ;; loop l'
    end.

(** ** FacebookBatchRequest *)

(** What [add] can be given: a list, a dict, a [FacebookRequest] (named by
    its reference) or anything else. *)
#[local] Unset Elimination Schemes.
Inductive arg : Type :=
| AList (l : list arg)
| ADict (d : list (pyval * arg))
| AReq (r : loc)
| AOther (v : pyval).
#[local] Set Elimination Schemes.

Definition MISSING_TOKEN : string :=
  "Missing access token on FacebookRequest and FacebookBatchRequest".

Definition BAD_ARGUMENT : string :=
  "Arguments must be of type dict, list or FacebookRequest.".

(** [FacebookBatchRequest._add_access_token]. *)
Definition _add_access_token (self request : loc) : M unit :=
  req ← deref request;
  if negb (truthy (access_token req)) then
    slf ← deref self;
    let access_token' := access_token slf in
    if negb (truthy access_token') then
      raise (FacebookSDKException MISSING_TOKEN)
    else
      slf ← deref self;
      modify request (with_access_token (access_token slf))
  else mret tt.

(** [self.requests.append(e)]. *)
Definition requests_append (self : loc) (e : entry) : M unit :=
  slf ← deref self;
  match requests slf with
  | Some l => modify self (with_requests (Some (l ++ [e])))
  | None => raise (AttributeError "requests")
  end.

(** [FacebookBatchRequest.add]. *)
Fixpoint add (self : loc) (request : arg) (name : pyval) {struct request} : M unit :=
  match request with
  | AList l => for_enumerate (fun index req => add self req (VInt index)) l 0
  | ADict d => for_items (fun key req => add self req key) d
  | AReq r =>
      _add_access_token self r ;;
      requests_append self (Entry (py_str name) r)
  | AOther _ => raise (FacebookSDKException BAD_ARGUMENT)
  end.

(** A batch item descriptor holds the headers mapping next to scalars. *)
Inductive item : Type :=
| IDict (d : dict pyval)
| IVal (v : pyval).

(** [FacebookBatchRequest.request_entity_to_batch_array]. *)
Definition request_entity_to_batch_array
  (self request : FacebookRequest) (request_name : pyval) : dict item :=
  let batch := [("headers", IDict (headers request));
                ("method", IVal (method request));
                ("relative_url", IVal (VStr (url request)))] in
  let encoded_body := url_encode_body request in
  let batch :=
    match encoded_body with
    | Some body =>
        if truthy (VStr body) then Dict.set "body" (IVal (VStr body)) batch
        else batch
    | None => batch
    end in
  let batch :=
    if is_not_None request_name
    then Dict.set "name" (IVal request_name) batch else batch in
  let batch :=
    if py_neb (access_token request) (access_token self)
    then Dict.set "access_token" (IVal (VStr (py_str (access_token request)))) batch
    else batch in
  batch.

(** The list comprehension of [requests_to_json]. *)
Fixpoint json_requests (self : FacebookRequest) (l : list entry)
  : M (list (dict item)) :=
  match l with
  | [] => mret []
  | e :: l' =>
      req ← deref (request e);
      let d := request_entity_to_batch_array self req (VStr (name e)) in
      ds ← json_requests self l';
      mret (d :: ds)
  end.

(** [FacebookBatchRequest.validate_batch_request_count]. *)
Definition validate_batch_request_count (self : loc) : M unit :=
  slf ← deref self;
  match requests slf with
  | Some l =>
      let requests_count := length l in
      if Nat.eqb requests_count 0 then
        raise (FacebookSDKException "Empty batch requests")
      else if Nat.ltb MAX_REQUEST_BY_BATCH requests_count then
        raise (FacebookSDKException
                 ("The limit of requests in batch is " +:+ pretty MAX_REQUEST_BY_BATCH))
      else mret tt
  | None => raise (AttributeError "requests")
  end.

(** [FacebookBatchRequest.__iter__]: the entries, in order. *)
Definition iter (self : loc) : M (list entry) :=
  slf ← deref self;
  match requests slf with
  | Some l => mret l
  | None => raise (AttributeError "requests")
  end.

Section Json.
(** [json.dumps] is the standard library's and is left abstract. *)
Variable json_dumps : list (dict item) -> string.

(** [FacebookBatchRequest.requests_to_json]. *)
Definition requests_to_json (self : loc) : M string :=
  slf ← deref self;
  match requests slf with
  | Some l => ds ← json_requests slf l; mret (json_dumps ds)
  | None => raise (AttributeError "requests")
  end.

(** [FacebookBatchRequest.prepare_batch_request]. *)
Definition prepare_batch_request (self : loc) : M unit :=
  batch ← requests_to_json self;
  let params := [("batch", VStr batch); ("include_headers", VBool true)] in
  modify self (fun o => with_params (Dict.update (_params o) params) o).

End Json.

(** [bool(x)] for an argument of [add]. *)
Definition arg_truthy (a : arg) : bool :=
  match a with
  | AList l => match l with [] => false | _ => true end
  | ADict d => match d with [] => false | _ => true end
  | AReq _ => true
  | AOther v => truthy v
  end.

(** Allocation of a new object. *)
Definition alloc (o : FacebookRequest) : M loc :=
  fun h => let l := fresh (dom h) in (<[l := o]> h, Return l).

(** [FacebookBatchRequest.__init__]; the constant [DEFAULT_GRAPH_VERSION]
    of [facebook_sdk.constants] is a parameter. *)
Definition batch_init (DEFAULT_GRAPH_VERSION : string)
  (app : option FacebookApp.t) (requests : arg) (access_token : pyval)
  (graph_version : option string) : M loc :=
  let graph_version :=
    match graph_version with
    | Some v => if String.eqb v "" then DEFAULT_GRAPH_VERSION else v
    | None => DEFAULT_GRAPH_VERSION
    end in
  self ← alloc (mkRequest app access_token METHOD_POST "" graph_version
                          [] [] (Some []));
  if arg_truthy requests then add self requests VNone ;; mret self
  else mret self.

(** ** facebook.py: the app token and the configuration *)

(** [FacebookApp.access_token]: the string ['{id}|{secret}'] the token is
    made of (the class [AccessToken] that wraps it is in
    [facebook_sdk.authentication], which is not among the sources). *)
Definition app_access_token (a : FacebookApp.t) : string :=
  FacebookApp.id a +:+ "|" +:+ FacebookApp.secret a.

Definition APP_ID_ENV_NAME : string := "FACEBOOK_APP_ID".
Definition APP_SECRET_ENV_NAME : string := "FACEBOOK_APP_SECRET".

(** [os.getenv(key, default)] in the environment [environ]. *)
Definition getenv (environ : string -> option string) (key : string)
  (default : pyval) : pyval :=
  match environ key with
  | Some v => VStr v
  | None => default
  end.

(** [kwargs.get(key, default)]. *)
Definition kwargs_get (kwargs : dict pyval) (key : string) (default : pyval) : pyval :=
  match Dict.get key kwargs with
  | Some v => v
  | None => default
  end.

Definition quoted (s : string) : string :=
  String "034"%char s +:+ String "034"%char EmptyString.

Definition MISSING_APP_ID : string :=
  "Required " +:+ quoted "app_id"
  +:+ " key not supplied in config and could not find fallback environment variable "
  +:+ quoted APP_ID_ENV_NAME.

Definition MISSING_APP_SECRET : string :=
  "Required " +:+ quoted "app_secret"
  +:+ " key not supplied in config and could not find fallback environment variable "
  +:+ quoted APP_SECRET_ENV_NAME.

(** The first step of [Facebook.__init__] (lines 41 to 61): the [config]
    mapping, built from the environment and the keyword arguments, and
    the two checks on it. Both credentials are looked up under
    [APP_ID_ENV_NAME], as in the source. *)
Definition Facebook_config (DEFAULT_GRAPH_VERSION : string)
  (environ : string -> option string) (kwargs : dict pyval)
  : outcome (dict pyval) :=
  let app_id := getenv environ APP_ID_ENV_NAME (kwargs_get kwargs "app_id" VNone) in
  let app_secret :=
    getenv environ APP_ID_ENV_NAME (kwargs_get kwargs "app_secret" VNone) in
  let config :=
    [("app_id", app_id);
     ("app_secret", app_secret);
     ("default_graph_version",
      kwargs_get kwargs "default_graph_version" (VStr DEFAULT_GRAPH_VERSION));
     ("default_access_token", kwargs_get kwargs "default_access_token" VNone)] in
  if negb (truthy app_id) then Raise (FacebookSDKException MISSING_APP_ID)
  else if negb (truthy app_secret) then Raise (FacebookSDKException MISSING_APP_SECRET)
  else Return config.

(** * Vocabulary of the statements *)

(** Induction on the arguments of [add], through the lists and dicts
    they nest. *)
Section ArgInduction.
Variable P : arg -> Prop.
Hypothesis HList : forall l, Forall P l -> P (AList l).
Hypothesis HDict : forall d, Forall (fun kv => P kv.2) d -> P (ADict d).
Hypothesis HReq : forall r, P (AReq r).
Hypothesis HOther : forall v, P (AOther v).

Fixpoint arg_ind (a : arg) : P a :=
  match a with
  | AList l =>
      HList l ((fix all (l : list arg) : Forall P l :=
                  match l with
                  | [] => @List.Forall_nil _ P
                  | x :: l' => @List.Forall_cons _ P x l' (arg_ind x) (all l')
                  end) l)
  | ADict d =>
      HDict d ((fix all (d : list (pyval * arg)) : Forall (fun kv => P kv.2) d :=
                  match d with
                  | [] => List.Forall_nil _
                  | (k, x) :: d' =>
                      @List.Forall_cons _ (fun kv => P kv.2) (k, x) d'
                                        (arg_ind x) (all d')
                  end) d)
  | AReq r => HReq r
  | AOther v => HOther v
  end.
End ArgInduction.

(** [c in s]. *)
Fixpoint has_char (c : ascii) (s : string) : bool :=
  match s with
  | EmptyString => false
  | String x t => Ascii.eqb x c || has_char c t
  end.

(** The decoded fields, read back as an entry list of a mapping. *)
Definition as_params (l : list (string * string)) : dict pyval :=
  map (fun kv => (kv.1, VStr kv.2)) l.

(** The store after the request at [r] took the batch's token and was
    appended. *)
Definition resolved_store (h : gmap loc FacebookRequest) (b r : loc)
  (ob o : FacebookRequest) (l : list entry) (name : pyval)
  : gmap loc FacebookRequest :=
  <[b := with_requests (Some (l ++ [Entry (py_str name) r])) ob]>
    (<[r := with_access_token (access_token ob) o]> h).

(** What an argument of [add] comes down to, in the order [add] meets it:
    requests with the names they are stored under, and values that are
    neither list, dict nor request. *)
Inductive leaf : Type :=
| LRequest (e : entry)
| LOther.

(** The lists [f index x] for the elements [x] of a list, with the index
    of [enumerate], one after the other. *)
Definition concat_enumerate {A B : Type} (f : Z -> A -> list B)
  : list A -> Z -> list B :=
  fix loop (l : list A) (index : Z) : list B :=
    match l with
    | [] => []
    | x :: l' => f index x ++ loop l' (index + 1)
    end.

(** The lists [f key x] for the items of a mapping, one after the other. *)
Definition concat_items {K A B : Type} (f : K -> A -> list B)
  : list (K * A) -> list B :=
  fix loop (l : list (K * A)) : list B :=
    match l with
    | [] => []
    | (k, x) :: l' => f k x ++ loop l'
    end.

(** The leaves of [add(a, name)]: the recursion of [add] without the store. *)
Fixpoint leaves (a : arg) (name : pyval) {struct a} : list leaf :=
  match a with
  | AList l => concat_enumerate (fun index req => leaves req (VInt index)) l 0
  | ADict d => concat_items (fun key req => leaves req key) d
  | AReq r => [LRequest (Entry (py_str name) r)]
  | AOther _ => [LOther]
  end.

(** The requests among the leaves. *)
Definition entries (ls : list leaf) : list entry :=
  flat_map (fun x => match x with LRequest e => [e] | LOther => [] end) ls.

(** The body of [add] for one request. *)
Definition add_one (self : loc) (e : entry) : M unit :=
  _add_access_token self (request e) ;; requests_append self e.

(** What [add] does at a leaf. *)
Definition add_leaf (self : loc) (x : leaf) : M unit :=
  match x with
  | LRequest e => add_one self e
  | LOther => raise (FacebookSDKException BAD_ARGUMENT)
  end.

(** The leaves one after the other, up to the first exception. *)
Fixpoint run_leaves (self : loc) (ls : list leaf) : M unit :=
  match ls with
  | [] => mret tt
  | x :: ls' => add_leaf self x ;; run_leaves self ls'
  end.

(** A sequence of calls [self.add(request, name)]. *)
Fixpoint add_all (self : loc) (calls : list (arg * pyval)) : M unit :=
  match calls with
  | [] => mret tt
  | (request, name) :: calls' => add self request name ;; add_all self calls'
  end.

(** The requests a sequence of calls adds, in order. *)
Definition added (calls : list (arg * pyval)) : list entry :=
  flat_map (fun c => entries (leaves c.1 c.2)) calls.

(** The request at [r] has a token of its own or can take the batch's. *)
Definition resolvable (h : gmap loc FacebookRequest) (batch_token : pyval) (r : loc)
  : Prop :=
  exists o, h !! r = Some o
            /\ (truthy (access_token o) = true \/ truthy batch_token = true).

(** [d] is the descriptor of the entry [e] in the store [h]. *)
Definition item_of (h : gmap loc FacebookRequest) (self : FacebookRequest)
  (e : entry) (d : dict item) : Prop :=
  exists o, h !! request e = Some o
            /\ d = request_entity_to_batch_array self o (VStr (name e)).

(** How the store [h1] after an addition relates to the store [h] before:
    the batch holds one entry more and keeps its token, every object is
    still there, with its token or, if that was a false one, with the
    batch's, and the entry's request is in the store. *)
Definition extends (self : loc) (ob : FacebookRequest) (l : list entry)
  (h h1 : gmap loc FacebookRequest) : Prop :=
  (exists ob1, h1 !! self = Some ob1 /\ requests ob1 = Some l
               /\ access_token ob1 = access_token ob)
  /\ (forall x o, h !! x = Some o ->
        exists o1, h1 !! x = Some o1
                   /\ (access_token o1 = access_token o
                       \/ (truthy (access_token o) = false
                           /\ truthy (access_token ob) = true))).

(** A serializer for the examples: the names of the items, in order. *)
Definition item_names (ds : list (dict item)) : string :=
  Url.join ","
    (map (fun d => match Dict.get "name" d with
                   | Some (IVal v) => py_str v
                   | _ => "?"
                   end) ds).

(** The fields [add] never writes. *)
Definition same_fields (o o' : FacebookRequest) : Prop :=
  app o' = app o /\ method o' = method o /\ endpoint o' = endpoint o
  /\ graph_version o' = graph_version o /\ headers o' = headers o
  /\ _params o' = _params o.

(** The token of an object is kept, or it was a false one and is now the
    batch's true one. *)
Definition token_kept (batch_token : pyval) (o o' : FacebookRequest) : Prop :=
  access_token o' = access_token o
  \/ (truthy (access_token o) = false /\ truthy batch_token = true
      /\ access_token o' = batch_token).

(** How a store may change while requests are added to the batch at [b]:
    no object appears or disappears, only tokens and the request list of
    the batch change. *)
Definition evolves (b : loc) (batch_token : pyval)
  (h h' : gmap loc FacebookRequest) : Prop :=
  (forall x o, h !! x = Some o ->
     exists o', h' !! x = Some o' /\ same_fields o o'
                /\ token_kept batch_token o o'
                /\ (x <> b -> requests o' = requests o))
  /\ (forall x, h !! x = None -> h' !! x = None).

(** The request of an entry is in the store and has a token. *)
Definition has_token (h : gmap loc FacebookRequest) (e : entry) : Prop :=
  exists o, h !! request e = Some o /\ truthy (access_token o) = true.

(** Every entry of the batch at [b] names a request with a token. *)
Definition batch_ready (h : gmap loc FacebookRequest) (b : loc) : Prop :=
  exists ob l, h !! b = Some ob /\ requests ob = Some l /\ Forall (has_token h) l.

(** The outcome of a sequence of additions, read off the store they start
    in: the first leaf that is no request, or whose request has no token
    while the batch has none, decides. *)
Fixpoint expected_outcome (h : gmap loc FacebookRequest) (batch_token : pyval)
  (ls : list leaf) : outcome unit :=
  match ls with
  | [] => Return tt
  | LOther :: _ => Raise (FacebookSDKException BAD_ARGUMENT)
  | LRequest e :: ls' =>
      match h !! request e with
      | None => Raise (NoObject (request e))
      | Some o =>
          if truthy (access_token o) || truthy batch_token
          then expected_outcome h batch_token ls'
          else Raise (FacebookSDKException MISSING_TOKEN)
      end
  end.

(** The value a key has after the mappings [hs] were merged, one after
    the other, over a mapping where it had the value [stored]. *)
Definition last_header (k : string) (hs : list (dict pyval))
  (stored : option pyval) : option pyval :=
  fold_left (fun acc hd => match Dict.get k hd with Some v => Some v | None => acc end)
            hs stored.

(** The requests a sequence of additions appends, read off the store it
    starts in: those met before the first leaf that fails. *)
Fixpoint appended (h : gmap loc FacebookRequest) (batch_token : pyval)
  (ls : list leaf) : list entry :=
  match ls with
  | [] => []
  | LOther :: _ => []
  | LRequest e :: ls' =>
      match h !! request e with
      | None => []
      | Some o =>
          if truthy (access_token o) || truthy batch_token
          then e :: appended h batch_token ls'
          else []
      end
  end.

(** Two tokens are the same, or neither is set. *)
Definition token_alike (o o0 : FacebookRequest) : Prop :=
  access_token o = access_token o0
  \/ (truthy (access_token o) = false /\ truthy (access_token o0) = false).

(** Two objects differ at most in tokens that are not set. *)
Definition obj_alike (o o0 : FacebookRequest) : Prop :=
  same_fields o o0 /\ requests o0 = requests o /\ token_alike o o0.

(** Two stores hold the same objects, alike. *)
Definition alike (h h0 : gmap loc FacebookRequest) : Prop :=
  forall x,
    match h !! x, h0 !! x with
    | Some o, Some o0 => obj_alike o o0
    | None, None => True
    | _, _ => False
    end.

(** ** Example objects *)

(** A POST request whose stored params use the key [access_token]. *)
Definition post_with_token_key : FacebookRequest :=
  mkRequest None (VStr "T") METHOD_POST "me" "v2.12" []
            [("access_token", VStr "X"); ("message", VStr "hi")] None.

(** A GET request with stored params and a token. *)
Definition get_with_token : FacebookRequest :=
  mkRequest None (VStr "T") METHOD_GET "me" "v2.12" []
            [("fields", VStr "id,name")] None.

(** A POST request with a token and an empty stored mapping. *)
Definition post_empty : FacebookRequest :=
  mkRequest None (VStr "T") METHOD_POST "me/feed" "v2.12" [] [] None.

(** A POST request with a number among its stored params. *)
Definition post_with_int : FacebookRequest :=
  mkRequest None (VStr "T") METHOD_POST "me/feed" "v2.12" []
            [("limit", VInt 10)] None.

(** A POST request whose stored params are strings. *)
Definition post_with_strings : FacebookRequest :=
  mkRequest None (VStr "T") METHOD_POST "me/feed" "v2.12" []
            [("message", VStr "a b&c=d"); ("link", VStr "")] None.

(** A store for the examples: a batch with token [T] at 1, a batch
    without token at 2, requests without token at 3 and 4, a request with
    the empty token at 5 and one with its own token [U] at 6. *)
Definition a_batch (tok : pyval) : FacebookRequest :=
  mkRequest None tok METHOD_POST "" "v2.12" [] [] (Some []).

(** A request for the endpoint [me]. *)
Definition a_request (tok : pyval) (m : pyval) (ps : dict pyval) : FacebookRequest :=
  mkRequest None tok m "me" "v2.12" [] ps None.

Definition a_store : gmap loc FacebookRequest :=
  <[1%positive := a_batch (VStr "T")]>
    (<[2%positive := a_batch VNone]>
       (<[3%positive := a_request VNone METHOD_GET []]>
          (<[4%positive := a_request VNone METHOD_GET [("fields", VStr "id")]]>
             (<[5%positive := a_request (VStr "") METHOD_DELETE []]>
                (<[6%positive := a_request (VStr "U") METHOD_POST [("message", VStr "hi")]]>
                   ∅))))).

(** A batch that holds [n] entries. *)
Definition batch_of_size (n : nat) : FacebookRequest :=
  with_requests (Some (replicate n (Entry "None" 6%positive))) (a_batch (VStr "T")).

(** Three calls of [add]: a named request, a list with a nested list, and
    a dict; and the entries they add. *)
Definition some_calls : list (arg * pyval) :=
  [(AReq 6%positive, VStr "post");
   (AList [AReq 3%positive; AList [AReq 4%positive]], VNone);
   (ADict [(VStr "get_user", AReq 3%positive)], VNone)].

Definition some_entries : list entry :=
  [Entry "post" 6%positive; Entry "0" 3%positive; Entry "0" 4%positive;
   Entry "get_user" 3%positive].

(** A list whose second element is no request. *)
Definition a_bad_list : arg :=
  AList [AReq 3%positive; AOther (VInt 5); AReq 4%positive].

(** A batch with token [T] that holds the requests at 3 and 6. *)
Definition a_filled_store : gmap loc FacebookRequest :=
  <[1%positive := with_requests
                    (Some [Entry "0" 3%positive; Entry "1" 6%positive])
                    (a_batch (VStr "T"))]> a_store.

(** The batch of [a_filled_store]. *)
Definition a_filled_batch : FacebookRequest :=
  with_requests (Some [Entry "0" 3%positive; Entry "1" 6%positive])
                (a_batch (VStr "T")).

(** The store after [FacebookBatchRequest(requests=[r3, r6], access_token='T')]. *)
Definition a_constructed_store : gmap loc FacebookRequest :=
  (batch_init "v2.12" None (AList [AReq 3%positive; AReq 6%positive])
              (VStr "T") None a_store).1.

(** A request with two headers. *)
Definition a_request_with_headers : FacebookRequest :=
  mkRequest None (VStr "T") METHOD_GET "me" "v2.12"
            [("Accept", VStr "*/*"); ("X-Trace", VStr "1")] [] None.

(** An app, and keyword arguments with both credentials. *)
Definition an_app : FacebookApp.t := FacebookApp.mk "1234" "s3cr|et".

Definition some_kwargs : dict pyval :=
  [("app_id", VStr "1234"); ("app_secret", VStr "s3cret")].

(** * Properties *)

(** ** Values and dictionaries *)

Lemma py_eqb_refl (v : pyval) : py_eqb v v = true.
Proof.
  destruct v as [|b|n|s]; simpl; auto.
  - by destruct b.
  - apply Z.eqb_refl.
  - apply String.eqb_refl.
Qed.

Lemma py_eqb_str (v : pyval) (s : string) : py_eqb v (VStr s) = true <-> v = VStr s.
Proof.
  split; [|intros ->; apply py_eqb_refl].
  destruct v; simpl; try discriminate.
  by intros ->%String.eqb_eq.
Qed.

Lemma truthy_not_empty (v : pyval) : truthy v = true -> v <> VStr "".
Proof. by intros H ->. Qed.

Module DictFacts.
Import Dict.

Section Facts.
Context {V : Type}.
Implicit Types (d : dict V) (k : string) (v : V).

Lemma get_set_eq k v d : get k (set k v d) = Some v.
Proof.
  induction d as [|[k' v'] d IH]; simpl.
  - by rewrite String.eqb_refl.
  - destruct (String.eqb k k') eqn:E; simpl; rewrite E; auto.
Qed.

Lemma get_set_ne k k' v d : k <> k' -> get k' (set k v d) = get k' d.
Proof.
  intros Hne. induction d as [|[k0 v0] d IH]; simpl.
  - destruct (String.eqb k' k) eqn:E; auto.
    apply String.eqb_eq in E. congruence.
  - destruct (String.eqb k k0) eqn:E; simpl.
    + apply String.eqb_eq in E. subst k0.
      destruct (String.eqb k' k) eqn:E'; auto.
      apply String.eqb_eq in E'. congruence.
    + by rewrite IH.
Qed.

Lemma update_singleton k v d : update d [(k, v)] = set k v d.
Proof. reflexivity. Qed.

Lemma mem_get k d : mem k d = true <-> is_Some (get k d).
Proof.
  unfold mem. destruct (get k d); split; intros H; eauto; try discriminate.
  by destruct H.
Qed.

Lemma mem_keys k d : mem k d = true <-> In k (keys d).
Proof.
  unfold mem. induction d as [|[k' v'] d IH]; simpl.
  - split; [discriminate | tauto].
  - destruct (String.eqb k k') eqn:E.
    + apply String.eqb_eq in E. subst. tauto.
    + apply String.eqb_neq in E. rewrite IH. split; [tauto|].
      intros [?|?]; [congruence | done].
Qed.

End Facts.
End DictFacts.

(** ** FacebookRequest *)

Lemma params_post (self : FacebookRequest) :
  method self = METHOD_POST ->
  params self =
    if truthy (access_token self)
    then [("access_token", VStr (py_str (access_token self)))] else [].
Proof. intros Hm. unfold params. rewrite Hm. reflexivity. Qed.

Lemma params_not_post (self : FacebookRequest) :
  py_eqb (method self) METHOD_POST = false ->
  params self =
    if truthy (access_token self)
    then Dict.set "access_token" (VStr (py_str (access_token self))) (_params self)
    else _params self.
Proof. intros Hm. unfold params, py_neb. rewrite Hm. reflexivity. Qed.

Lemma post_params_not_post (self : FacebookRequest) :
  py_eqb (method self) METHOD_POST = false -> post_params self = None.
Proof. intros Hm. unfold post_params. by rewrite Hm. Qed.

Lemma url_encode_body_no_post_params (self : FacebookRequest) :
  post_params self = None -> url_encode_body self = None.
Proof. intros H. unfold url_encode_body. by rewrite H. Qed.

Lemma py_eqb_post_false (v : pyval) : v <> METHOD_POST -> py_eqb v METHOD_POST = false.
Proof.
  intros Hne. destruct (py_eqb v METHOD_POST) eqn:E; [|done].
  by apply py_eqb_str in E.
Qed.

(** C3, as stated, fails: on a POST request with a token, a stored key
    [access_token] is a key of [params] too. *)
Lemma params_post_key_collision :
  method post_with_token_key = METHOD_POST /\
  ~ (forall k, Dict.mem k (_params post_with_token_key) = true ->
               Dict.mem k (params post_with_token_key) = false).
Proof.
  split; [reflexivity|].
  intros H. specialize (H "access_token" eq_refl). discriminate H.
Qed.

(** C3 (amended): on a POST request [params] holds nothing from the stored
    params: it is empty without a token and the single entry
    [access_token] with one, so no stored key other than [access_token]
    is among its keys, and the stored params are [post_params]. On a GET or
    DELETE request [params] is the stored params, updated with the
    [access_token] entry when a token is set, [post_params] is absent and
    so is the body. *)
Theorem params_by_method (self : FacebookRequest) :
  (method self = METHOD_POST ->
     params self =
       (if truthy (access_token self)
        then [("access_token", VStr (py_str (access_token self)))] else [])
     /\ (forall k, k <> "access_token" -> Dict.mem k (params self) = false)
     /\ post_params self = Some (_params self))
  /\ (method self = METHOD_GET \/ method self = METHOD_DELETE ->
     params self =
       (if truthy (access_token self)
        then Dict.set "access_token" (VStr (py_str (access_token self)))
                      (_params self)
        else _params self)
     /\ post_params self = None
     /\ url_encode_body self = None).
Proof.
  split.
  - intros Hm. rewrite (params_post _ Hm). split; [done|]. split.
    + intros k Hk. destruct (truthy (access_token self)); [|done].
      unfold Dict.mem. simpl.
      destruct (String.eqb k "access_token") eqn:E; [|done].
      by apply String.eqb_eq in E.
    + unfold post_params. by rewrite Hm.
  - intros Hm.
    assert (py_eqb (method self) METHOD_POST = false) as Hne
      by (destruct Hm as [-> | ->]; reflexivity).
    rewrite (params_not_post _ Hne). split; [done|].
    pose proof (post_params_not_post _ Hne) as Hp.
    split; [done|]. by apply url_encode_body_no_post_params.
Qed.

Lemma params_by_method_witness :
  (params post_with_token_key = [("access_token", VStr "T")]
   /\ (forall k, k <> "access_token" ->
                 Dict.mem k (params post_with_token_key) = false)
   /\ post_params post_with_token_key = Some (_params post_with_token_key))
  /\ (params get_with_token =
        [("fields", VStr "id,name"); ("access_token", VStr "T")]
      /\ post_params get_with_token = None
      /\ url_encode_body get_with_token = None).
Proof.
  split.
  - exact (proj1 (params_by_method post_with_token_key) eq_refl).
  - exact (proj2 (params_by_method get_with_token) (or_introl eq_refl)).
Defined.

(** C4: when the access token is present (true under Python's truth
    test, which is the test [params] applies), [params] maps
    [access_token] to the token's string, whatever the method. *)
Theorem params_include_access_token (self : FacebookRequest) :
  truthy (access_token self) = true ->
  Dict.get "access_token" (params self) = Some (VStr (py_str (access_token self))).
Proof.
  intros Ht. unfold params. rewrite Ht, DictFacts.update_singleton.
  apply DictFacts.get_set_eq.
Qed.

Lemma params_include_access_token_witness :
  truthy (access_token post_empty) = true /\
  Dict.get "access_token" (params post_empty) = Some (VStr "T").
Proof.
  split; [reflexivity|].
  exact (params_include_access_token post_empty eq_refl).
Defined.

(** C9: [post_params] is the stored params exactly when the method is
    POST; for any other method it is [None], which is not the empty
    mapping a POST request without params yields. *)
Theorem post_params_only_for_post (self : FacebookRequest) :
  (method self = METHOD_POST -> post_params self = Some (Dict.copy (_params self)))
  /\ (method self <> METHOD_POST ->
      post_params self = None /\ post_params self <> Some [])
  /\ (forall d, post_params self = Some d ->
                method self = METHOD_POST /\ d = _params self).
Proof.
  unfold post_params. repeat split.
  - by intros ->.
  - by rewrite py_eqb_post_false.
  - by rewrite py_eqb_post_false.
  - destruct (py_eqb (method self) METHOD_POST) eqn:E; [|done].
    by apply py_eqb_str in E.
  - destruct (py_eqb (method self) METHOD_POST); [|done].
    unfold Dict.copy in *. congruence.
Qed.

Lemma post_params_only_for_post_witness :
  post_params post_empty = Some []
  /\ (post_params get_with_token = None /\ post_params get_with_token <> Some [])
  /\ (method post_with_token_key = METHOD_POST
      /\ _params post_with_token_key = _params post_with_token_key).
Proof.
  pose proof (post_params_only_for_post post_empty) as [H1 _].
  pose proof (post_params_only_for_post get_with_token) as [_ [H2 _]].
  pose proof (post_params_only_for_post post_with_token_key) as [_ [_ H3]].
  split; [exact (H1 eq_refl)|]. split.
  - apply H2. discriminate.
  - exact (H3 _ eq_refl).
Defined.

(** ** Form encoding and decoding are inverse *)

Module UrlFacts.
Import Url.

Ltac each_byte c := destruct c as [[] [] [] [] [] [] [] []].

Lemma has_char_app c s t : has_char c (s +:+ t) = has_char c s || has_char c t.
Proof.
  induction s as [|x s IH]; simpl; [done|].
  by rewrite IH, orb_assoc.
Qed.

Lemma quote_byte_no_amp c : has_char "&" (quote_byte c) = false.
Proof. each_byte c; reflexivity. Qed.

Lemma quote_byte_no_eq c : has_char "=" (quote_byte c) = false.
Proof. each_byte c; reflexivity. Qed.

Lemma quote_plus_no_amp s : has_char "&" (quote_plus s) = false.
Proof.
  induction s as [|c s IH]; simpl; [done|].
  by rewrite has_char_app, quote_byte_no_amp, IH.
Qed.

Lemma quote_plus_no_eq s : has_char "=" (quote_plus s) = false.
Proof.
  induction s as [|c s IH]; simpl; [done|].
  by rewrite has_char_app, quote_byte_no_eq, IH.
Qed.

Lemma unquote_plus_quote_byte c t :
  unquote_plus (quote_byte c +:+ t) = String c (unquote_plus t).
Proof. unfold unquote_plus. each_byte c; reflexivity. Qed.

Lemma unquote_plus_quote_plus s : unquote_plus (quote_plus s) = s.
Proof.
  induction s as [|c s IH]; simpl; [done|].
  by rewrite unquote_plus_quote_byte, IH.
Qed.

Lemma split_first_app sep a b :
  has_char sep a = false ->
  split_first sep (a +:+ String sep b) = Some (a, b).
Proof.
  induction a as [|x a IH]; simpl.
  - intros _. by rewrite Ascii.eqb_refl.
  - intros [Hx Ha]%orb_false_iff. rewrite Hx, (IH Ha). done.
Qed.

Lemma split_no_sep sep a : has_char sep a = false -> split sep a = [a].
Proof.
  induction a as [|x a IH]; simpl; [done|].
  intros [Hx Ha]%orb_false_iff. by rewrite Hx, (IH Ha).
Qed.

Lemma split_app sep a b :
  has_char sep a = false ->
  split sep (a +:+ String sep b) = a :: split sep b.
Proof.
  induction a as [|x a IH]; simpl.
  - intros _. by rewrite Ascii.eqb_refl.
  - intros [Hx Ha]%orb_false_iff. by rewrite Hx, (IH Ha).
Qed.

Lemma split_join (l : list string) :
  l <> [] -> Forall (fun f => has_char "&" f = false) l ->
  split "&" (join "&" l) = l.
Proof.
  induction l as [|x l IH]; [done|]. intros _ Hall.
  apply Forall_cons in Hall as [Hx Hl].
  destruct l as [|y l]; simpl.
  - by apply split_no_sep.
  - change ("&" +:+ ?s) with (String "&" s).
    rewrite (split_app "&" x _ Hx). f_equal. by apply IH.
Qed.

Lemma encode_pair_no_amp kv : has_char "&" (encode_pair kv) = false.
Proof.
  unfold encode_pair.
  by rewrite !has_char_app, !quote_plus_no_amp.
Qed.

Lemma encode_pair_nonempty kv : String.eqb (encode_pair kv) "" = false.
Proof.
  apply String.eqb_neq. intros H.
  assert (has_char "=" (encode_pair kv) = has_char "=" "") as Hc by (by rewrite H).
  unfold encode_pair in Hc. rewrite !has_char_app in Hc. simpl in Hc.
  by rewrite orb_true_r in Hc.
Qed.

Lemma decode_field_encode_pair kv :
  decode_field (encode_pair kv) = [(kv.1, py_str kv.2)].
Proof.
  unfold decode_field. rewrite encode_pair_nonempty.
  unfold encode_pair.
  change ("=" +:+ ?s) with (String "=" s).
  rewrite (split_first_app "=" _ _ (quote_plus_no_eq _)).
  by rewrite !unquote_plus_quote_plus.
Qed.

Lemma urlencode_nonempty (d : dict pyval) : d <> [] -> urlencode d <> "".
Proof.
  destruct d as [|kv d]; [done|]. intros _ H.
  pose proof (encode_pair_nonempty kv) as Hne. apply String.eqb_neq in Hne.
  unfold urlencode in H. simpl in H. destruct (map encode_pair d).
  - done.
  - destruct (encode_pair kv); [done | discriminate H].
Qed.

(** Decoding an encoded mapping gives back its keys and the strings of
    its values, in order. *)
Lemma parse_qsl_urlencode (d : dict pyval) :
  parse_qsl (urlencode d) = map (fun kv => (kv.1, py_str kv.2)) d.
Proof.
  unfold parse_qsl, urlencode.
  destruct d as [|kv d]; [reflexivity|].
  rewrite split_join.
  - induction (kv :: d) as [|x l IH]; simpl; [done|].
    by rewrite decode_field_encode_pair, IH.
  - done.
  - apply Forall_map, Forall_forall. intros x _. apply encode_pair_no_amp.
Qed.

End UrlFacts.

(** ** The encoded body *)

Lemma url_encode_body_post (self : FacebookRequest) :
  method self = METHOD_POST -> _params self <> [] ->
  url_encode_body self = Some (Url.urlencode (_params self)).
Proof.
  intros Hm Hne. unfold url_encode_body, post_params, Dict.copy. rewrite Hm. simpl.
  by destruct (_params self).
Qed.

Lemma url_encode_body_empty (self : FacebookRequest) :
  _params self = [] -> url_encode_body self = None.
Proof.
  intros He. unfold url_encode_body, post_params, Dict.copy. rewrite He.
  by destruct (py_eqb _ _).
Qed.

Lemma url_encode_body_truthy (self : FacebookRequest) (body : string) :
  url_encode_body self = Some body -> truthy (VStr body) = true.
Proof.
  unfold url_encode_body. destruct (post_params self) as [d|]; [|done].
  destruct d as [|kv d]; [done|]. simpl. intros [= <-].
  apply negb_true_iff, String.eqb_neq.
  by apply UrlFacts.urlencode_nonempty.
Qed.

(** C8, as stated, fails: the number [10] is encoded as the text [10],
    and decoding gives that text, not the number. *)
Lemma url_encode_body_int_value :
  ~ (exists s, url_encode_body post_with_int = Some s
               /\ as_params (Url.parse_qsl s) = _params post_with_int).
Proof. intros [s [[= <-] H]]. vm_compute in H. discriminate H. Qed.

(** C8 (amended): [url_encode_body] is absent when [post_params] is absent
    or the stored params are empty; otherwise it is the form encoding of
    the stored params, and decoding it gives, in order, the original
    keys with the strings ([str]) of the original values, which are the
    original pairs when the values are strings. *)
Theorem url_encode_body_roundtrip (self : FacebookRequest) :
  (post_params self = None \/ _params self = [] -> url_encode_body self = None)
  /\ (method self = METHOD_POST -> _params self <> [] ->
      exists s,
        url_encode_body self = Some s
        /\ s = Url.urlencode (_params self)
        /\ s <> ""
        /\ Url.parse_qsl s = map (fun kv => (kv.1, py_str kv.2)) (_params self)
        /\ (Forall (fun kv => exists t, kv.2 = VStr t) (_params self) ->
            as_params (Url.parse_qsl s) = _params self)).
Proof.
  split.
  - intros [H|H].
    + by apply url_encode_body_no_post_params.
    + by apply url_encode_body_empty.
  - intros Hm Hne. exists (Url.urlencode (_params self)).
    split; [by apply url_encode_body_post|]. split; [done|].
    split; [by apply UrlFacts.urlencode_nonempty|].
    rewrite UrlFacts.parse_qsl_urlencode. split; [done|].
    intros Hall. unfold as_params. rewrite map_map. clear Hne.
    induction Hall as [|[k v] l [t Ht] _ IH]; simpl; [done|].
    simpl in Ht. subst v. simpl. f_equal. exact IH.
Qed.

Lemma url_encode_body_roundtrip_witness :
  url_encode_body get_with_token = None
  /\ exists s,
       url_encode_body post_with_strings = Some s
       /\ s = "message=a+b%26c%3Dd&link="
       /\ s <> ""
       /\ Url.parse_qsl s = [("message", "a b&c=d"); ("link", "")]
       /\ (Forall (fun kv => exists t, kv.2 = VStr t) (_params post_with_strings) ->
           as_params (Url.parse_qsl s) = _params post_with_strings).
Proof.
  split.
  - exact (proj1 (url_encode_body_roundtrip get_with_token) (or_introl eq_refl)).
  - assert (_params post_with_strings <> []) as Hne by discriminate.
    exact (proj2 (url_encode_body_roundtrip post_with_strings) eq_refl Hne).
Defined.

(** ** Batch item descriptors *)

(** C2: the descriptor always has [headers], [method] and [relative_url],
    taken from the request; it has [body] exactly when the request's
    [url_encode_body] is not [None], [name] exactly when the name given is
    not [None], and [access_token] exactly when the request's token
    differs ([!=]) from the batch's; a key left out has no entry at all. *)
Theorem batch_item_keys (self request : FacebookRequest) (request_name : pyval) :
  let batch := request_entity_to_batch_array self request request_name in
  Dict.get "headers" batch = Some (IDict (headers request))
  /\ Dict.get "method" batch = Some (IVal (method request))
  /\ Dict.get "relative_url" batch = Some (IVal (VStr (url request)))
  /\ Dict.get "body" batch =
       match url_encode_body request with
       | Some body => Some (IVal (VStr body))
       | None => None
       end
  /\ Dict.get "name" batch =
       (if is_not_None request_name then Some (IVal request_name) else None)
  /\ Dict.get "access_token" batch =
       (if py_neb (access_token request) (access_token self)
        then Some (IVal (VStr (py_str (access_token request)))) else None)
  /\ (forall k, Dict.mem k batch = true ->
        In k ["headers"; "method"; "relative_url"; "body"; "name"; "access_token"]).
Proof.
  unfold request_entity_to_batch_array.
  destruct (url_encode_body request) as [body|] eqn:E.
  - rewrite (url_encode_body_truthy _ _ E).
    destruct (is_not_None request_name),
      (py_neb (access_token request) (access_token self));
      (repeat split; try reflexivity);
      intros k Hk; apply DictFacts.mem_keys in Hk; simpl in *; tauto.
  - destruct (is_not_None request_name),
      (py_neb (access_token request) (access_token self));
      (repeat split; try reflexivity);
      intros k Hk; apply DictFacts.mem_keys in Hk; simpl in *; tauto.
Qed.

(** ** The store monad: unfolding *)

Section Run.
Implicit Types (h : gmap loc FacebookRequest) (o : FacebookRequest).

Lemma bind_run {A B : Type} (m : M A) (f : A -> M B) h :
  (m ≫= f) h =
    match m h with
    | (h', Return a) => f a h'
    | (h', Raise e) => (h', Raise e)
    end.
Proof. reflexivity. Qed.

Lemma deref_run h l o : h !! l = Some o -> deref l h = (h, Return o).
Proof. intros H. unfold deref. by rewrite H. Qed.

Lemma modify_run h l o f :
  h !! l = Some o -> modify l f h = (<[l := f o]> h, Return tt).
Proof. intros H. unfold modify. by rewrite bind_run, (deref_run _ _ _ H). Qed.

Lemma _add_access_token_keep h self request o :
  h !! request = Some o -> truthy (access_token o) = true ->
  _add_access_token self request h = (h, Return tt).
Proof.
  intros H Ht. unfold _add_access_token.
  by rewrite bind_run, (deref_run _ _ _ H), Ht.
Qed.

Lemma _add_access_token_set h self request o ob :
  h !! request = Some o -> truthy (access_token o) = false ->
  h !! self = Some ob -> truthy (access_token ob) = true ->
  _add_access_token self request h =
    (<[request := with_access_token (access_token ob) o]> h, Return tt).
Proof.
  intros H Ht Hb Htb. unfold _add_access_token.
  rewrite bind_run, (deref_run _ _ _ H), Ht. simpl.
  rewrite bind_run, (deref_run _ _ _ Hb), Htb. simpl.
  rewrite bind_run, (deref_run _ _ _ Hb).
  by apply modify_run.
Qed.

Lemma _add_access_token_missing h self request o ob :
  h !! request = Some o -> truthy (access_token o) = false ->
  h !! self = Some ob -> truthy (access_token ob) = false ->
  _add_access_token self request h = (h, Raise (FacebookSDKException MISSING_TOKEN)).
Proof.
  intros H Ht Hb Htb. unfold _add_access_token.
  rewrite bind_run, (deref_run _ _ _ H), Ht. simpl.
  by rewrite bind_run, (deref_run _ _ _ Hb), Htb.
Qed.

Lemma requests_append_run h self ob l e :
  h !! self = Some ob -> requests ob = Some l ->
  requests_append self e h =
    (<[self := with_requests (Some (l ++ [e])) ob]> h, Return tt).
Proof.
  intros Hb Hl. unfold requests_append.
  rewrite bind_run, (deref_run _ _ _ Hb), Hl.
  by apply modify_run.
Qed.

Lemma add_request_run self r name h :
  add self (AReq r) name h =
    (_add_access_token self r ≫= fun _ => requests_append self (Entry (py_str name) r)) h.
Proof. reflexivity. Qed.

End Run.

(** ** Adding one request *)

Section AddOne.
Variables (h : gmap loc FacebookRequest) (b r : loc) (ob o : FacebookRequest).
Variables (l : list entry) (name : pyval).
Hypothesis Hb : h !! b = Some ob.
Hypothesis Hl : requests ob = Some l.
Hypothesis Hr : h !! r = Some o.

Lemma add_own_token :
  truthy (access_token o) = true ->
  add b (AReq r) name h =
    (<[b := with_requests (Some (l ++ [Entry (py_str name) r])) ob]> h, Return tt).
Proof.
  intros Ht. rewrite add_request_run, bind_run.
  rewrite (_add_access_token_keep _ _ _ _ Hr Ht).
  by apply requests_append_run.
Qed.

Lemma falsy_truthy_distinct :
  truthy (access_token o) = false -> truthy (access_token ob) = true -> r <> b.
Proof. intros Ht Htb ->. rewrite Hb in Hr. congruence. Qed.

Lemma add_batch_token :
  truthy (access_token o) = false -> truthy (access_token ob) = true ->
  add b (AReq r) name h = (resolved_store h b r ob o l name, Return tt).
Proof.
  intros Ht Htb. pose proof (falsy_truthy_distinct Ht Htb) as Hne.
  rewrite add_request_run, bind_run.
  rewrite (_add_access_token_set _ _ _ _ _ Hr Ht Hb Htb).
  apply requests_append_run; [|done].
  by rewrite lookup_insert_ne.
Qed.

Lemma add_missing_token :
  truthy (access_token o) = false -> truthy (access_token ob) = false ->
  add b (AReq r) name h = (h, Raise (FacebookSDKException MISSING_TOKEN)).
Proof.
  intros Ht Htb. rewrite add_request_run, bind_run.
  by rewrite (_add_access_token_missing _ _ _ _ _ Hr Ht Hb Htb).
Qed.

Lemma resolved_store_request :
  r <> b ->
  resolved_store h b r ob o l name !! r
  = Some (with_access_token (access_token ob) o).
Proof.
  intros Hne. unfold resolved_store.
  by rewrite lookup_insert_ne, lookup_insert_eq.
Qed.

Lemma resolved_store_batch :
  resolved_store h b r ob o l name !! b =
    Some (with_requests (Some (l ++ [Entry (py_str name) r])) ob).
Proof. unfold resolved_store. by rewrite lookup_insert_eq. Qed.

End AddOne.

(** ** The size of a batch *)

(** C5: [validate_batch_request_count] raises on an empty batch and on
    more than 50 requests, and returns for 1 to 50 requests. *)
Theorem validate_batch_request_count_bounds
  (h : gmap loc FacebookRequest) (b : loc) (ob : FacebookRequest) (l : list entry) :
  h !! b = Some ob -> requests ob = Some l ->
  (length l = 0%nat ->
     validate_batch_request_count b h
     = (h, Raise (FacebookSDKException "Empty batch requests")))
  /\ ((50 < length l)%nat ->
      validate_batch_request_count b h
      = (h, Raise (FacebookSDKException "The limit of requests in batch is 50")))
  /\ ((1 <= length l <= 50)%nat ->
      validate_batch_request_count b h = (h, Return tt)).
Proof.
  intros Hb Hl. unfold validate_batch_request_count.
  rewrite bind_run, (deref_run _ _ _ Hb), Hl. unfold MAX_REQUEST_BY_BATCH.
  repeat split.
  - by intros ->.
  - intros Hlen.
    destruct (Nat.eqb_spec (length l) 0); [lia|].
    destruct (Nat.ltb_spec 50 (length l)); [reflexivity | lia].
  - intros Hlen.
    destruct (Nat.eqb_spec (length l) 0); [lia|].
    destruct (Nat.ltb_spec 50 (length l)); [lia | reflexivity].
Qed.

Lemma validate_batch_request_count_bounds_witness :
  validate_batch_request_count 1%positive a_store
  = (a_store, Raise (FacebookSDKException "Empty batch requests"))
  /\ validate_batch_request_count 1%positive (<[1%positive := batch_of_size 51]> a_store)
     = (<[1%positive := batch_of_size 51]> a_store,
        Raise (FacebookSDKException "The limit of requests in batch is 50"))
  /\ validate_batch_request_count 1%positive (<[1%positive := batch_of_size 50]> a_store)
     = (<[1%positive := batch_of_size 50]> a_store, Return tt)
  /\ validate_batch_request_count 1%positive (<[1%positive := batch_of_size 1]> a_store)
     = (<[1%positive := batch_of_size 1]> a_store, Return tt).
Proof.
  split; [|split; [|split]].
  - exact (proj1 (validate_batch_request_count_bounds a_store 1%positive
             (a_batch (VStr "T")) [] eq_refl eq_refl) eq_refl).
  - refine (proj1 (proj2 (validate_batch_request_count_bounds
             (<[1%positive := batch_of_size 51]> a_store) 1%positive
             (batch_of_size 51) _ eq_refl eq_refl)) _).
    simpl. lia.
  - refine (proj2 (proj2 (validate_batch_request_count_bounds
             (<[1%positive := batch_of_size 50]> a_store) 1%positive
             (batch_of_size 50) _ eq_refl eq_refl)) _).
    simpl. lia.
  - refine (proj2 (proj2 (validate_batch_request_count_bounds
             (<[1%positive := batch_of_size 1]> a_store) 1%positive
             (batch_of_size 1) _ eq_refl eq_refl)) _).
    simpl. lia.
Defined.

(** ** [add] as a sequence of single additions *)

Section Leaves.
Variable self : loc.
Implicit Types (h : gmap loc FacebookRequest) (ls : list leaf).

Lemma run_leaves_app ls1 ls2 h :
  run_leaves self (ls1 ++ ls2) h
  = (run_leaves self ls1 ≫= fun _ => run_leaves self ls2) h.
Proof.
  revert h. induction ls1 as [|x ls1 IH]; intros h; simpl; [done|].
  rewrite !bind_run. destruct (add_leaf self x h) as [h1 [[]|e]]; [|done].
  by rewrite IH, bind_run.
Qed.

Lemma add_leaves (a : arg) :
  forall name h, add self a name h = run_leaves self (leaves a name) h.
Proof.
  induction a as [l IH|d IH|r|v] using arg_ind; intros name h; simpl.
  - generalize 0. revert h.
    induction IH as [|x l Hx _ IHl]; intros h index; simpl; [done|].
    rewrite run_leaves_app, !bind_run, Hx.
    destruct (run_leaves self _ h) as [h1 [[]|e]]; [|done]. apply IHl.
  - revert h.
    induction IH as [|[k x] d Hx _ IHd]; intros h; simpl; [done|].
    rewrite run_leaves_app, !bind_run. simpl in Hx. rewrite Hx.
    destruct (run_leaves self _ h) as [h1 [[]|e]]; [|done]. apply IHd.
  - unfold add_one. cbn [request]. rewrite !bind_run.
    destruct (_add_access_token self r h) as [h1 [[]|e]]; [|done].
    by destruct (requests_append self _ h1) as [h2 [[]|e]].
  - by rewrite bind_run.
Qed.

Lemma add_all_leaves (calls : list (arg * pyval)) h :
  add_all self calls h
  = run_leaves self (flat_map (fun c => leaves c.1 c.2) calls) h.
Proof.
  revert h. induction calls as [|[a n] calls IH]; intros h; simpl; [done|].
  rewrite run_leaves_app, !bind_run, add_leaves.
  destruct (run_leaves self _ h) as [h1 [[]|e]]; [|done]. apply IH.
Qed.

End Leaves.

(** ** One addition, in every case *)

Section Step.
Variables (self : loc) (ob : FacebookRequest) (l : list entry).
Variables (h : gmap loc FacebookRequest) (e : entry).
Hypothesis Hb : h !! self = Some ob.
Hypothesis Hl : requests ob = Some l.

Lemma add_one_as_add : add_one self e h = add self (AReq (request e)) (VStr (name e)) h.
Proof. by destruct e. Qed.

Lemma entry_eta : Entry (py_str (VStr (name e))) (request e) = e.
Proof. by destruct e. Qed.

Lemma add_one_no_object :
  h !! request e = None ->
  add_one self e h = (h, Raise (NoObject (request e))).
Proof.
  intros Hr. unfold add_one, _add_access_token, deref.
  rewrite !bind_run, Hr. done.
Qed.

Lemma extends_append :
  extends self ob (l ++ [e]) h (<[self := with_requests (Some (l ++ [e])) ob]> h).
Proof.
  split.
  - eexists. by rewrite lookup_insert_eq.
  - intros x o Hx. destruct (decide (x = self)) as [->|Hne].
    + rewrite lookup_insert_eq. eexists. split; [done|].
      left. rewrite Hb in Hx. by injection Hx as <-.
    + rewrite lookup_insert_ne by done. eauto.
Qed.

Lemma extends_resolved o :
  h !! request e = Some o -> truthy (access_token o) = false ->
  truthy (access_token ob) = true ->
  extends self ob (l ++ [e]) h
          (resolved_store h self (request e) ob o l (VStr (name e))).
Proof.
  intros Hr Ht Htb.
  assert (request e <> self) as Hne by (by eapply falsy_truthy_distinct).
  unfold resolved_store. rewrite entry_eta. split.
  - eexists. by rewrite lookup_insert_eq.
  - intros x ox Hx. destruct (decide (x = self)) as [->|Hxs].
    + rewrite lookup_insert_eq. eexists. split; [done|].
      left. rewrite Hb in Hx. by injection Hx as <-.
    + rewrite lookup_insert_ne by done.
      destruct (decide (x = request e)) as [->|Hxr].
      * rewrite lookup_insert_eq. eexists. split; [done|].
        right. rewrite Hr in Hx. by injection Hx as <-.
      * rewrite lookup_insert_ne by done. eauto.
Qed.

(** An addition that returns extends the store. *)
Lemma add_one_return h1 :
  add_one self e h = (h1, Return tt) ->
  extends self ob (l ++ [e]) h h1 /\ is_Some (h !! request e).
Proof.
  intros Hadd. destruct (h !! request e) as [o|] eqn:Hr.
  - split; [|eauto]. rewrite add_one_as_add in Hadd.
    destruct (truthy (access_token o)) eqn:Ht.
    + rewrite (add_own_token h self _ ob o l _ Hb Hl Hr Ht), entry_eta in Hadd.
      injection Hadd as <-. apply extends_append.
    + destruct (truthy (access_token ob)) eqn:Htb.
      * rewrite (add_batch_token h self _ ob o l _ Hb Hl Hr Ht Htb) in Hadd.
        injection Hadd as <-. by apply extends_resolved.
      * by rewrite (add_missing_token h self _ ob o _ Hb Hr Ht Htb) in Hadd.
  - by rewrite (add_one_no_object Hr) in Hadd.
Qed.

(** An addition of a request with a resolvable token returns. *)
Lemma add_one_ok :
  resolvable h (access_token ob) (request e) ->
  exists h1, add_one self e h = (h1, Return tt).
Proof.
  intros [o [Hr Hres]]. rewrite add_one_as_add.
  destruct (truthy (access_token o)) eqn:Ht.
  - eexists. by eapply add_own_token.
  - destruct Hres as [Hres|Htb]; [congruence|].
    eexists. by eapply add_batch_token.
Qed.

End Step.

Lemma extends_is_Some self ob l h h1 x :
  extends self ob l h h1 -> is_Some (h !! x) -> is_Some (h1 !! x).
Proof. intros [_ H] [o Ho]. destruct (H x o Ho) as [o1 [Ho1 _]]. eauto. Qed.

Lemma extends_resolvable self ob l h h1 x :
  extends self ob l h h1 ->
  resolvable h (access_token ob) x -> resolvable h1 (access_token ob) x.
Proof.
  intros [_ H] [o [Ho Hres]]. destruct (H x o Ho) as [o1 [Ho1 Htok]].
  exists o1. split; [done|].
  destruct Htok as [->|[_ Htb]]; [done | by right].
Qed.

(** ** Sequences of additions *)

Section Sequences.
Variable self : loc.

Lemma run_leaves_return (ls : list leaf) :
  forall h h' ob l,
    run_leaves self ls h = (h', Return tt) ->
    h !! self = Some ob -> requests ob = Some l ->
    (exists ob', h' !! self = Some ob' /\ requests ob' = Some (l ++ entries ls)
                 /\ access_token ob' = access_token ob)
    /\ (forall x, is_Some (h !! x) -> is_Some (h' !! x))
    /\ Forall (fun e => is_Some (h' !! request e)) (entries ls).
Proof.
  induction ls as [|x ls IH]; intros h h' ob l Hrun Hb Hl.
  - injection Hrun as <-. rewrite app_nil_r. split; [eauto|]. split; [done|].
    constructor.
  - simpl in Hrun. rewrite bind_run in Hrun.
    destruct x as [e|]; simpl in Hrun; [|done].
    destruct (add_one self e h) as [h1 [[]|ex]] eqn:Hadd; [|done].
    destruct (add_one_return self ob l h e Hb Hl h1 Hadd) as [Hext Hsome].
    pose proof Hext as [[ob1 [Hb1 [Hl1 Htok1]]] _].
    destruct (IH h1 h' ob1 _ Hrun Hb1 Hl1) as [[ob' [Hb' [Hl' Htok']]] [Hdom Hall]].
    split; [|split].
    + exists ob'. split; [done|]. split; [|congruence].
      rewrite Hl'. simpl. by rewrite <- app_assoc.
    + intros y Hy. apply Hdom. by eapply extends_is_Some.
    + simpl. constructor; [|done].
      apply Hdom. by eapply extends_is_Some.
Qed.

Lemma run_requests_ok (es : list entry) :
  forall h ob l,
    h !! self = Some ob -> requests ob = Some l ->
    Forall (fun e => resolvable h (access_token ob) (request e)) es ->
    exists h', run_leaves self (map LRequest es) h = (h', Return tt).
Proof.
  induction es as [|e es IH]; intros h ob l Hb Hl Hall; simpl.
  - by eexists.
  - apply Forall_cons in Hall as [He Hes].
    destruct (add_one_ok self ob l h e Hb Hl He) as [h1 Hadd].
    rewrite bind_run, Hadd.
    destruct (add_one_return self ob l h e Hb Hl h1 Hadd) as [Hext _].
    pose proof Hext as [[ob1 [Hb1 [Hl1 Htok1]]] _].
    apply (IH h1 ob1 _ Hb1 Hl1). rewrite Htok1.
    eapply Forall_impl; [exact Hes|].
    intros x Hx. by eapply extends_resolvable.
Qed.

End Sequences.

(** ** The names of the entries *)

Lemma entries_requests (es : list entry) : entries (map LRequest es) = es.
Proof. induction es as [|e es IH]; simpl; [done | by rewrite IH]. Qed.

Lemma leaves_list_of_requests (rs : list loc) (index : Z) :
  concat_enumerate (fun index req => leaves req (VInt index)) (map AReq rs) index
  = map LRequest
      (imap (fun i r => Entry (py_str (VInt (index + Z.of_nat i))) r) rs).
Proof.
  revert index. induction rs as [|r rs IH]; intros index; simpl; [done|].
  change (Z.of_nat 0) with 0. rewrite Z.add_0_r. f_equal. rewrite IH. f_equal.
  apply imap_ext. intros i x _. simpl.
  by replace (index + 1 + Z.of_nat i) with (index + Z.of_nat (S i)) by lia.
Qed.

Lemma leaves_dict_of_requests (d : list (pyval * loc)) :
  concat_items (fun key req => leaves req key)
               (map (fun kr => (kr.1, AReq kr.2)) d)
  = map LRequest (map (fun kr => Entry (py_str kr.1) kr.2) d).
Proof. induction d as [|[k r] d IH]; simpl; [done | by rewrite IH]. Qed.

Lemma Forall_imap_request (P : loc -> Prop) (f : nat -> loc -> entry) (rs : list loc) :
  (forall i r, request (f i r) = r) ->
  Forall P rs -> Forall (fun e => P (request e)) (imap f rs).
Proof.
  intros Hf Hall. revert f Hf.
  induction Hall as [|r rs Hr _ IH]; intros f Hf; simpl; constructor.
  - by rewrite Hf.
  - apply IH. intros i x. apply Hf.
Qed.

(** An argument that comes down to requests with resolvable tokens is
    added whole, in order. *)
Lemma add_requests (self : loc) (a : arg) (name : pyval) (es : list entry)
  (h : gmap loc FacebookRequest) (ob : FacebookRequest) (l : list entry) :
  leaves a name = map LRequest es ->
  h !! self = Some ob -> requests ob = Some l ->
  Forall (fun e => resolvable h (access_token ob) (request e)) es ->
  exists h' ob',
    add self a name h = (h', Return tt)
    /\ h' !! self = Some ob' /\ requests ob' = Some (l ++ es).
Proof.
  intros Hleaves Hb Hl Hall.
  destruct (run_requests_ok self es h ob l Hb Hl Hall) as [h' Hrun].
  destruct (run_leaves_return self _ h h' ob l Hrun Hb Hl)
    as [[ob' [Hb' [Hl' _]]] _].
  exists h', ob'. rewrite add_leaves, Hleaves.
  split; [done|]. split; [done|]. by rewrite Hl', entries_requests.
Qed.

(** C6: a list of requests is appended under the names of the positions,
    from [0] on, in order; a dict of requests under the strings of its
    keys; one request under the string of the name given, which is
    ["None"] when no name is given. *)
Theorem add_assigns_names
  (h : gmap loc FacebookRequest) (b : loc) (ob : FacebookRequest) (l : list entry) :
  h !! b = Some ob -> requests ob = Some l ->
  (forall (rs : list loc) (name : pyval),
     Forall (resolvable h (access_token ob)) rs ->
     exists h' ob',
       add b (AList (map AReq rs)) name h = (h', Return tt)
       /\ h' !! b = Some ob'
       /\ requests ob'
          = Some (l ++ imap (fun i r => Entry (py_str (VInt (Z.of_nat i))) r) rs))
  /\ (forall (d : list (pyval * loc)) (name : pyval),
        Forall (fun kr => resolvable h (access_token ob) kr.2) d ->
        exists h' ob',
          add b (ADict (map (fun kr => (kr.1, AReq kr.2)) d)) name h = (h', Return tt)
          /\ h' !! b = Some ob'
          /\ requests ob' = Some (l ++ map (fun kr => Entry (py_str kr.1) kr.2) d))
  /\ (forall (r : loc) (name : pyval),
        resolvable h (access_token ob) r ->
        exists h' ob',
          add b (AReq r) name h = (h', Return tt)
          /\ h' !! b = Some ob'
          /\ requests ob' = Some (l ++ [Entry (py_str name) r]))
  /\ py_str VNone = "None".
Proof.
  intros Hb Hl. split; [|split; [|split]].
  - intros rs name Hall.
    eapply add_requests; [| done | done |].
    + simpl. apply (leaves_list_of_requests rs 0).
    + by apply Forall_imap_request.
  - intros d name Hall.
    eapply add_requests; [| done | done |].
    + simpl. apply leaves_dict_of_requests.
    + rewrite Forall_map. eapply Forall_impl; [exact Hall|]. by intros [k r].
  - intros r name Hr.
    eapply (add_requests b _ name [Entry (py_str name) r]); [done..|].
    by constructor.
  - reflexivity.
Qed.

Lemma add_assigns_names_witness :
  (exists h' ob',
     add 1%positive (AList (map AReq [3%positive; 6%positive; 4%positive])) VNone a_store
     = (h', Return tt)
     /\ h' !! 1%positive = Some ob'
     /\ requests ob'
        = Some [Entry "0" 3%positive; Entry "1" 6%positive; Entry "2" 4%positive])
  /\ (exists h' ob',
        add 1%positive
            (ADict [(VStr "get_user", AReq 3%positive); (VInt 7, AReq 6%positive)])
            VNone a_store
        = (h', Return tt)
        /\ h' !! 1%positive = Some ob'
        /\ requests ob'
           = Some [Entry "get_user" 3%positive; Entry "7" 6%positive])
  /\ (exists h' ob',
        add 1%positive (AReq 6%positive) VNone a_store = (h', Return tt)
        /\ h' !! 1%positive = Some ob'
        /\ requests ob' = Some [Entry "None" 6%positive]).
Proof.
  pose proof (add_assigns_names a_store 1%positive (a_batch (VStr "T")) []
                eq_refl eq_refl) as [Hlist [Hdict [Hone _]]].
  assert (forall r : loc, is_Some (a_store !! r) ->
                          resolvable a_store (VStr "T") r) as Hres.
  { intros r [o Ho]. exists o. split; [done | by right]. }
  split; [|split].
  - apply (Hlist [3%positive; 6%positive; 4%positive] VNone).
    repeat constructor; apply Hres; by eexists.
  - apply (Hdict [(VStr "get_user", 3%positive); (VInt 7, 6%positive)] VNone).
    repeat constructor; apply Hres; by eexists.
  - apply (Hone 6%positive VNone). apply Hres. by eexists.
Defined.

(** ** The order of the batch items *)

Lemma json_requests_run (self : FacebookRequest) (es : list entry)
  (h : gmap loc FacebookRequest) :
  Forall (fun e => is_Some (h !! request e)) es ->
  exists ds, json_requests self es h = (h, Return ds)
             /\ Forall2 (item_of h self) es ds.
Proof.
  induction 1 as [|e es [o Ho] _ [ds [Hds Hall]]]; simpl.
  - exists []. split; [done | constructor].
  - exists (request_entity_to_batch_array self o (VStr (name e)) :: ds).
    rewrite bind_run, (deref_run _ _ _ Ho), bind_run, Hds.
    split; [done|]. constructor; [|done]. by exists o.
Qed.

Section Order.
Variable json_dumps : list (dict item) -> string.

(** C7: after any sequence of [add] calls that returned, the batch holds
    the requests those calls added, in the order they were added, and
    [requests_to_json] returns the serialization of one descriptor per
    entry, the descriptors in the order of the entries. *)
Theorem requests_to_json_in_order
  (h h' : gmap loc FacebookRequest) (b : loc) (ob : FacebookRequest)
  (l : list entry) (calls : list (arg * pyval)) :
  h !! b = Some ob -> requests ob = Some l ->
  Forall (fun e => is_Some (h !! request e)) l ->
  add_all b calls h = (h', Return tt) ->
  exists ob' ds,
    h' !! b = Some ob'
    /\ requests ob' = Some (l ++ added calls)
    /\ requests_to_json json_dumps b h' = (h', Return (json_dumps ds))
    /\ length ds = length (l ++ added calls)
    /\ Forall2 (item_of h' ob') (l ++ added calls) ds.
Proof.
  intros Hb Hl Hold Hrun. rewrite add_all_leaves in Hrun.
  destruct (run_leaves_return b _ h h' ob l Hrun Hb Hl)
    as [[ob' [Hb' [Hl' _]]] [Hdom Hnew]].
  assert (entries (flat_map (fun c => leaves c.1 c.2) calls) = added calls) as Hadded.
  { unfold added, entries. clear. induction calls as [|c cs IH]; simpl; [done|].
    by rewrite flat_map_app, IH. }
  rewrite Hadded in Hl', Hnew.
  assert (Forall (fun e => is_Some (h' !! request e)) (l ++ added calls)) as Hall.
  { apply Forall_app. split; [|done].
    eapply Forall_impl; [exact Hold|]. intros e He. by apply Hdom. }
  destruct (json_requests_run ob' _ h' Hall) as [ds [Hds Hitems]].
  exists ob', ds. split; [done|]. split; [done|]. split; [|split].
  - unfold requests_to_json.
    by rewrite bind_run, (deref_run _ _ _ Hb'), Hl', bind_run, Hds.
  - symmetry. by eapply Forall2_length.
  - done.
Qed.

End Order.

Lemma requests_to_json_in_order_witness :
  exists h' ob' ds,
    add_all 1%positive some_calls a_store = (h', Return tt)
    /\ h' !! 1%positive = Some ob'
    /\ requests ob' = Some some_entries
    /\ requests_to_json item_names 1%positive h' = (h', Return (item_names ds))
    /\ length ds = 4%nat
    /\ Forall2 (item_of h' ob') some_entries ds.
Proof.
  destruct (add_all 1%positive some_calls a_store) as [h' out] eqn:Hrun.
  assert (out = Return tt) as ->
    by (apply (f_equal snd) in Hrun; vm_compute in Hrun; congruence).
  destruct (requests_to_json_in_order item_names a_store h' 1%positive
              (a_batch (VStr "T")) [] some_calls eq_refl eq_refl
              (List.Forall_nil _) Hrun)
    as [ob' [ds H]].
  exists h', ob', ds. split; [done|]. exact H.
Defined.

(** * Further properties *)

(** ** What [add] leaves alone *)

Lemma same_fields_refl o : same_fields o o.
Proof. by repeat split. Qed.

Lemma same_fields_trans o1 o2 o3 :
  same_fields o1 o2 -> same_fields o2 o3 -> same_fields o1 o3.
Proof.
  intros (?&?&?&?&?&?) (?&?&?&?&?&?). repeat split; congruence.
Qed.

Lemma token_kept_trans t o1 o2 o3 :
  token_kept t o1 o2 -> token_kept t o2 o3 -> token_kept t o1 o3.
Proof.
  intros [H12|(Hf&Ht&H12)] [H23|(Hf'&Ht'&H23)].
  - left. congruence.
  - right. rewrite <- H12. done.
  - right. split; [done|]. split; [done|]. congruence.
  - right. done.
Qed.

Lemma evolves_refl b t h : evolves b t h h.
Proof.
  split; [|done]. intros x o Hx. exists o.
  split; [done|]. split; [apply same_fields_refl|]. split; [by left | done].
Qed.

Lemma evolves_trans b t h1 h2 h3 :
  evolves b t h1 h2 -> evolves b t h2 h3 -> evolves b t h1 h3.
Proof.
  intros [H12 N12] [H23 N23]. split.
  - intros x o1 Hx. destruct (H12 x o1 Hx) as (o2 & Hx2 & Hs12 & Ht12 & Hr12).
    destruct (H23 x o2 Hx2) as (o3 & Hx3 & Hs23 & Ht23 & Hr23).
    exists o3. split; [done|]. split; [by eapply same_fields_trans|].
    split; [by eapply token_kept_trans|].
    intros Hne. rewrite (Hr23 Hne). by apply Hr12.
  - intros x Hx. by apply N23, N12.
Qed.

Lemma evolves_append b ob l h :
  h !! b = Some ob ->
  evolves b (access_token ob) h (<[b := with_requests (Some l) ob]> h).
Proof.
  intros Hb. split.
  - intros x o Hx. destruct (decide (x = b)) as [->|Hne].
    + rewrite lookup_insert_eq. rewrite Hb in Hx. injection Hx as <-.
      eexists. split; [done|]. split; [by repeat split|].
      split; [by left | done].
    + rewrite lookup_insert_ne by done. exists o.
      split; [done|]. split; [by repeat split|]. split; [by left | done].
  - intros x Hx. destruct (decide (x = b)) as [->|Hne]; [congruence|].
    by rewrite lookup_insert_ne.
Qed.

Lemma evolves_resolved b r ob o l name h :
  h !! b = Some ob -> h !! r = Some o -> r <> b ->
  truthy (access_token o) = false -> truthy (access_token ob) = true ->
  evolves b (access_token ob) h (resolved_store h b r ob o l name).
Proof.
  intros Hb Hr Hne Ht Htb. unfold resolved_store. split.
  - intros x ox Hx. destruct (decide (x = b)) as [->|Hxb].
    + rewrite lookup_insert_eq. rewrite Hb in Hx. injection Hx as <-.
      eexists. split; [done|]. split; [by repeat split|].
      split; [by left | done].
    + rewrite lookup_insert_ne by done.
      destruct (decide (x = r)) as [->|Hxr].
      * rewrite lookup_insert_eq. rewrite Hr in Hx. injection Hx as <-.
        eexists. split; [done|]. split; [by repeat split|].
        split; [by right | done].
      * rewrite lookup_insert_ne by done. exists ox.
        split; [done|]. split; [by repeat split|].
        split; [by left | done].
  - intros x Hx.
    destruct (decide (x = b)) as [->|Hxb]; [congruence|].
    destruct (decide (x = r)) as [->|Hxr]; [congruence|].
    by rewrite !lookup_insert_ne.
Qed.

Lemma has_token_evolves b t h h' e :
  evolves b t h h' -> has_token h e -> has_token h' e.
Proof.
  intros [H _] (o & Ho & Ht). destruct (H _ _ Ho) as (o' & Ho' & _ & Hk & _).
  exists o'. split; [done|].
  destruct Hk as [->|(Hf & _)]; congruence.
Qed.

(** One addition, whatever its outcome. *)
Lemma add_one_any b e h h1 out ob l :
  add_one b e h = (h1, out) ->
  h !! b = Some ob -> requests ob = Some l ->
  evolves b (access_token ob) h h1
  /\ exists ob1,
       h1 !! b = Some ob1 /\ access_token ob1 = access_token ob
       /\ match out with
          | Return _ => requests ob1 = Some (l ++ [e]) /\ has_token h1 e
          | Raise _ => requests ob1 = Some l
          end.
Proof.
  intros Hadd Hb Hl. destruct (h !! request e) as [o|] eqn:Hr.
  - rewrite add_one_as_add in Hadd.
    destruct (truthy (access_token o)) eqn:Ht.
    + rewrite (add_own_token h b _ ob o l _ Hb Hl Hr Ht), entry_eta in Hadd.
      injection Hadd as <- <-. split; [by apply evolves_append|].
      eexists. rewrite lookup_insert_eq. split; [done|]. split; [done|].
      split; [done|]. destruct (decide (request e = b)) as [Heq|Hne].
      * eexists. rewrite Heq, lookup_insert_eq. split; [done|]. simpl.
        rewrite Heq, Hb in Hr. by injection Hr as ->.
      * exists o. by rewrite lookup_insert_ne.
    + destruct (truthy (access_token ob)) eqn:Htb.
      * assert (request e <> b) as Hne by (by eapply falsy_truthy_distinct).
        rewrite (add_batch_token h b _ ob o l _ Hb Hl Hr Ht Htb) in Hadd.
        injection Hadd as <- <-. split; [by apply evolves_resolved|].
        eexists. rewrite resolved_store_batch. split; [done|]. split; [done|].
        rewrite entry_eta. split; [done|]. eexists.
        rewrite resolved_store_request by done. done.
      * rewrite (add_missing_token h b _ ob o _ Hb Hr Ht Htb) in Hadd.
        injection Hadd as <- <-. split; [apply evolves_refl | eauto].
  - rewrite (add_one_no_object b h e Hr) in Hadd. injection Hadd as <- <-.
    split; [apply evolves_refl | eauto].
Qed.

(** A sequence of additions, whatever its outcome: the batch's list grows
    by an initial segment of the requests, all of it if the sequence
    returns, and every request added has a token. *)
Lemma run_leaves_any b ls :
  forall h h' out ob l,
    run_leaves b ls h = (h', out) ->
    h !! b = Some ob -> requests ob = Some l ->
    evolves b (access_token ob) h h'
    /\ exists ob' new,
         h' !! b = Some ob' /\ access_token ob' = access_token ob
         /\ requests ob' = Some (l ++ new)
         /\ new `prefix_of` entries ls
         /\ (out = Return tt -> new = entries ls)
         /\ Forall (has_token h') new.
Proof.
  induction ls as [|x ls IH]; intros h h' out ob l Hrun Hb Hl.
  - injection Hrun as <- <-. split; [apply evolves_refl|].
    exists ob, []. rewrite app_nil_r. by repeat split.
  - simpl in Hrun. rewrite bind_run in Hrun. destruct x as [e|]; simpl in Hrun.
    + destruct (add_one b e h) as [h1 out1] eqn:Hadd.
      destruct (add_one_any b e h h1 out1 ob l Hadd Hb Hl)
        as (Hev & ob1 & Hb1 & Htok1 & Hout1).
      destruct out1 as [[]|ex].
      * destruct Hout1 as [Hl1 Hhas].
        destruct (IH h1 h' out ob1 _ Hrun Hb1 Hl1)
          as (Hev' & ob' & new & Hb' & Htok' & Hl' & Hpre & Hall & Htoks).
        rewrite Htok1 in Hev'. split; [by eapply evolves_trans|].
        exists ob', (e :: new). split; [done|]. split; [congruence|].
        split; [by rewrite Hl', <- app_assoc|].
        split; [by apply prefix_cons|].
        split; [intros Hout; simpl; by rewrite (Hall Hout)|].
        constructor; [by eapply has_token_evolves | done].
      * injection Hrun as <- <-. split; [done|].
        exists ob1, []. rewrite app_nil_r. split; [done|]. split; [done|].
        split; [done|]. split; [apply prefix_nil|]. split; [done | constructor].
    + injection Hrun as <- <-. split; [apply evolves_refl|].
      exists ob, []. rewrite app_nil_r. split; [done|]. split; [done|].
      split; [done|]. split; [apply prefix_nil|]. split; [done | constructor].
Qed.

(** X2: [add] touches nothing but tokens and the batch's list. Whatever
    the outcome, every object is still in the store with the same app,
    method, endpoint, version, headers and params; a token that was set
    is the same; only the batch's request list may differ; and no object
    is created. *)
Theorem add_changes_only_tokens
  (h h' : gmap loc FacebookRequest) (out : outcome unit) (b : loc)
  (ob : FacebookRequest) (l : list entry) (a : arg) (name : pyval) :
  add b a name h = (h', out) ->
  h !! b = Some ob -> requests ob = Some l ->
  (forall x o, h !! x = Some o ->
     exists o', h' !! x = Some o'
                /\ same_fields o o'
                /\ (truthy (access_token o) = true ->
                    access_token o' = access_token o)
                /\ (truthy (access_token o) = false ->
                    access_token o' = access_token o
                    \/ access_token o' = access_token ob)
                /\ (x <> b -> requests o' = requests o))
  /\ (forall x, h !! x = None -> h' !! x = None).
Proof.
  intros Hadd Hb Hl. rewrite add_leaves in Hadd.
  destruct (run_leaves_any b _ h h' out ob l Hadd Hb Hl) as ([Hev Hnone] & _).
  split; [|done]. intros x o Hx.
  destruct (Hev x o Hx) as (o' & Hx' & Hsame & Hkept & Hreq).
  exists o'. split; [done|]. split; [done|]. split; [|split; [|done]].
  - intros Ht. destruct Hkept as [?|(Hf & _)]; congruence.
  - intros _. destruct Hkept as [?|(_ & _ & ?)]; auto.
Qed.

Lemma add_changes_only_tokens_witness :
  (forall x o, a_store !! x = Some o ->
     exists o', (add 1%positive a_bad_list VNone a_store).1 !! x = Some o'
                /\ same_fields o o'
                /\ (truthy (access_token o) = true ->
                    access_token o' = access_token o)
                /\ (truthy (access_token o) = false ->
                    access_token o' = access_token o
                    \/ access_token o' = access_token (a_batch (VStr "T")))
                /\ (x <> 1%positive -> requests o' = requests o))
  /\ (forall x, a_store !! x = None ->
                (add 1%positive a_bad_list VNone a_store).1 !! x = None).
Proof.
  exact (add_changes_only_tokens a_store _ _ 1%positive (a_batch (VStr "T")) []
           a_bad_list VNone (surjective_pairing _) eq_refl eq_refl).
Defined.

(** X3: [add] keeps the batch ready to be sent: if every entry of the
    batch names a request with a token, the same holds after [add],
    whether it returns or raises. *)
Theorem add_keeps_batch_ready
  (h h' : gmap loc FacebookRequest) (out : outcome unit) (b : loc)
  (a : arg) (name : pyval) :
  batch_ready h b -> add b a name h = (h', out) -> batch_ready h' b.
Proof.
  intros (ob & l & Hb & Hl & Hall) Hadd. rewrite add_leaves in Hadd.
  destruct (run_leaves_any b _ h h' out ob l Hadd Hb Hl)
    as (Hev & ob' & new & Hb' & _ & Hl' & _ & _ & Hnew).
  exists ob', (l ++ new). split; [done|]. split; [done|].
  apply Forall_app. split; [|done].
  eapply Forall_impl; [exact Hall|]. intros e He. by eapply has_token_evolves.
Qed.

Lemma add_keeps_batch_ready_witness :
  batch_ready a_store 1%positive
  /\ batch_ready (add 1%positive a_bad_list VNone a_store).1 1%positive.
Proof.
  assert (batch_ready a_store 1%positive) as Hready.
  { exists (a_batch (VStr "T")), []. split; [done|]. split; [done | constructor]. }
  split; [exact Hready|].
  exact (add_keeps_batch_ready a_store _ _ 1%positive a_bad_list VNone Hready
           (surjective_pairing _)).
Defined.

Lemma expected_outcome_evolves b t h h1 ls :
  evolves b t h h1 -> expected_outcome h1 t ls = expected_outcome h t ls.
Proof.
  intros [Hev Hnone]. induction ls as [|[e|] ls IH]; simpl; [done| |done].
  destruct (h !! request e) as [o|] eqn:Hr.
  - destruct (Hev _ _ Hr) as (o' & -> & _ & Hkept & _).
    destruct Hkept as [->|(_ & Ht & _)]; rewrite IH; [done|].
    by rewrite Ht, !orb_true_r.
  - by rewrite (Hnone _ Hr).
Qed.

Lemma run_leaves_outcome b ls :
  forall h ob l,
    h !! b = Some ob -> requests ob = Some l ->
    (run_leaves b ls h).2 = expected_outcome h (access_token ob) ls.
Proof.
  induction ls as [|[e|] ls IH]; intros h ob l Hb Hl; simpl; [done| |done].
  rewrite bind_run. simpl.
  destruct (add_one b e h) as [h1 out1] eqn:Hadd.
  destruct (add_one_any b e h h1 out1 ob l Hadd Hb Hl)
    as (Hev & ob1 & Hb1 & Htok1 & Hout1).
  destruct (h !! request e) as [o|] eqn:Hr.
  - rewrite add_one_as_add in Hadd.
    destruct (truthy (access_token o)) eqn:Ht; simpl.
    + rewrite (add_own_token h b _ ob o l _ Hb Hl Hr Ht) in Hadd.
      injection Hadd as <- <-. destruct Hout1 as [Hl1 _].
      rewrite (IH _ ob1 _ Hb1 Hl1), Htok1. by eapply expected_outcome_evolves.
    + destruct (truthy (access_token ob)) eqn:Htb.
      * rewrite (add_batch_token h b _ ob o l _ Hb Hl Hr Ht Htb) in Hadd.
        injection Hadd as <- <-. destruct Hout1 as [Hl1 _].
        rewrite (IH _ ob1 _ Hb1 Hl1), Htok1. by eapply expected_outcome_evolves.
      * rewrite (add_missing_token h b _ ob o _ Hb Hr Ht Htb) in Hadd.
        by injection Hadd as <- <-.
  - rewrite (add_one_no_object b h e Hr) in Hadd. by injection Hadd as <- <-.
Qed.

(** X4: the outcome of [add] can be read off the store it starts in. It
    returns when every element met is a request with a token of its own or
    the batch has a token; it raises the SDK exception for a bad argument
    at the first element that is neither list, dict nor request, and the
    one for a missing token at the first request without token when the
    batch has none, whichever comes first. *)
Theorem add_outcome
  (h : gmap loc FacebookRequest) (b : loc) (ob : FacebookRequest)
  (l : list entry) (a : arg) (name : pyval) :
  h !! b = Some ob -> requests ob = Some l ->
  (add b a name h).2 = expected_outcome h (access_token ob) (leaves a name).
Proof.
  intros Hb Hl. rewrite add_leaves. by eapply run_leaves_outcome.
Qed.

Lemma add_outcome_witness :
  (add 2%positive (AList [AReq 6%positive; AReq 5%positive; AOther VNone]) VNone
       a_store).2
  = Raise (FacebookSDKException MISSING_TOKEN).
Proof.
  exact (add_outcome a_store 2%positive (a_batch VNone) []
           (AList [AReq 6%positive; AReq 5%positive; AOther VNone]) VNone
           eq_refl eq_refl).
Defined.

(** ** Tokens in the batch items *)

Lemma py_neb_refl (v : pyval) : py_neb v v = false.
Proof. unfold py_neb. by rewrite py_eqb_refl. Qed.

Lemma item_access_token (self req : FacebookRequest) (request_name : pyval) :
  Dict.get "access_token" (request_entity_to_batch_array self req request_name)
  = if py_neb (access_token req) (access_token self)
    then Some (IVal (VStr (py_str (access_token req)))) else None.
Proof.
  unfold request_entity_to_batch_array.
  destruct (url_encode_body req) as [body|] eqn:E.
  - rewrite (url_encode_body_truthy _ _ E).
    by destruct (is_not_None request_name),
         (py_neb (access_token req) (access_token self)).
  - by destruct (is_not_None request_name),
         (py_neb (access_token req) (access_token self)).
Qed.

(** X5: after [add] of one request, its batch item carries [access_token]
    exactly when the request came with a token of its own that differs
    from the batch's; a request that took the batch's token is serialized
    without one. *)
Theorem added_item_access_token
  (h h' : gmap loc FacebookRequest) (b r : loc) (ob o : FacebookRequest)
  (l : list entry) (name : pyval) :
  h !! b = Some ob -> requests ob = Some l -> h !! r = Some o ->
  add b (AReq r) name h = (h', Return tt) ->
  exists o' ob',
    h' !! r = Some o' /\ h' !! b = Some ob'
    /\ Dict.get "access_token"
         (request_entity_to_batch_array ob' o' (VStr (py_str name)))
       = if truthy (access_token o) && py_neb (access_token o) (access_token ob)
         then Some (IVal (VStr (py_str (access_token o)))) else None.
Proof.
  intros Hb Hl Hr Hadd.
  change (add b (AReq r) name h) with (add_one b (Entry (py_str name) r) h) in Hadd.
  destruct (add_one_any b _ h h' _ ob l Hadd Hb Hl)
    as ([Hev _] & ob' & Hb' & Htok' & _ & (o'' & Hr'' & Ht'')).
  destruct (Hev r o Hr) as (o' & Hr' & _ & Hkept & _).
  simpl in Hr''. rewrite Hr' in Hr''. injection Hr'' as <-.
  exists o', ob'. split; [done|]. split; [done|].
  rewrite item_access_token, Htok'.
  destruct Hkept as [Heq|(Hf & _ & Heq)]; rewrite Heq.
  - rewrite Heq in Ht''. by rewrite Ht''.
  - by rewrite Hf, py_neb_refl.
Qed.

Lemma added_item_access_token_witness :
  (exists o' ob',
     (add 1%positive (AReq 3%positive) VNone a_store).1 !! 3%positive = Some o'
     /\ (add 1%positive (AReq 3%positive) VNone a_store).1 !! 1%positive = Some ob'
     /\ Dict.get "access_token"
          (request_entity_to_batch_array ob' o' (VStr "None")) = None)
  /\ (exists o' ob',
        (add 1%positive (AReq 6%positive) VNone a_store).1 !! 6%positive = Some o'
        /\ (add 1%positive (AReq 6%positive) VNone a_store).1 !! 1%positive = Some ob'
        /\ Dict.get "access_token"
             (request_entity_to_batch_array ob' o' (VStr "None"))
           = Some (IVal (VStr "U"))).
Proof.
  split.
  - exact (added_item_access_token a_store _ 1%positive 3%positive
             (a_batch (VStr "T")) (a_request VNone METHOD_GET []) [] VNone
             eq_refl eq_refl eq_refl (surjective_pairing _)).
  - exact (added_item_access_token a_store _ 1%positive 6%positive
             (a_batch (VStr "T"))
             (a_request (VStr "U") METHOD_POST [("message", VStr "hi")]) [] VNone
             eq_refl eq_refl eq_refl (surjective_pairing _)).
Defined.

(** ** More on dictionaries *)

Module DictMore.
Import Dict.

Section Facts.
Context {V : Type}.
Implicit Types (d e : dict V) (k : string) (v : V).

Lemma set_id k v d : get k d = Some v -> set k v d = d.
Proof.
  induction d as [|[k' v'] d IH]; simpl; [done|].
  destruct (String.eqb k k') eqn:E.
  - by intros [= ->].
  - intros H. by rewrite IH.
Qed.

Lemma get_In k v d : get k d = Some v -> In (k, v) d.
Proof.
  induction d as [|[k' v'] d IH]; simpl; [done|].
  destruct (String.eqb k k') eqn:E.
  - apply String.eqb_eq in E. subst. intros [= ->]. by left.
  - intros H. right. by apply IH.
Qed.

Lemma get_None_keys k d : get k d = None <-> ~ In k (keys d).
Proof.
  rewrite <- DictFacts.mem_keys. unfold mem.
  destruct (get k d); split; intros H; try done; exfalso; by apply H.
Qed.

Lemma keys_set k v d :
  keys (set k v d) = if mem k d then keys d else keys d ++ [k].
Proof.
  unfold mem. induction d as [|[k' v'] d IH]; simpl; [done|].
  destruct (String.eqb k k') eqn:E; simpl; [done|].
  rewrite IH. by destruct (get k d).
Qed.

Lemma set_NoDup k v d : NoDup (keys d) -> NoDup (keys (set k v d)).
Proof.
  intros Hd. rewrite keys_set. destruct (mem k d) eqn:E; [done|].
  apply NoDup_app. split; [done|]. split; [|apply NoDup_singleton].
  intros x Hx ->%list_elem_of_singleton.
  apply list_elem_of_In, DictFacts.mem_keys in Hx. congruence.
Qed.

Lemma update_NoDup d e : NoDup (keys d) -> NoDup (keys (update d e)).
Proof.
  unfold update. revert d. induction e as [|[k v] e IH]; intros d Hd; simpl; [done|].
  by apply IH, set_NoDup.
Qed.

(** A mapping merged in wins over the entries that were there. *)
Lemma get_update k d e :
  NoDup (keys e) ->
  get k (update d e) = match get k e with Some v => Some v | None => get k d end.
Proof.
  unfold update. revert d.
  induction e as [|[k' v'] e IH]; intros d He; simpl; [done|].
  apply NoDup_cons in He as [Hk' He]. rewrite (IH _ He). simpl.
  destruct (String.eqb k k') eqn:E.
  - apply String.eqb_eq in E. subst k'.
    assert (get k e = None) as ->.
    { apply get_None_keys. intros Hin. apply Hk'. by apply list_elem_of_In. }
    apply DictFacts.get_set_eq.
  - apply String.eqb_neq in E. destruct (get k e); [done|].
    apply DictFacts.get_set_ne. congruence.
Qed.

End Facts.
End DictMore.

(** ** Preparing a batch *)

(** [json_requests] only reads the store. *)
Lemma json_requests_store (s : FacebookRequest) (l : list entry)
  (h h0 : gmap loc FacebookRequest) (out : outcome (list (dict item))) :
  json_requests s l h = (h0, out) -> h0 = h.
Proof.
  revert h0 out. induction l as [|e l IH]; intros h0 out Hds; simpl in Hds.
  - by injection Hds as <-.
  - rewrite bind_run in Hds. unfold deref in Hds.
    destruct (h !! request e); [|by injection Hds as <-].
    rewrite bind_run in Hds.
    destruct (json_requests s l h) as [h1 [ds1|ex]] eqn:Hrec.
    + injection Hds as <- _. by eapply IH.
    + injection Hds as <- _. by eapply IH.
Qed.

Lemma json_requests_frame (b : loc) (x s s1 : FacebookRequest) (l : list entry) :
  forall (h : gmap loc FacebookRequest) (ds : list (dict item)),
    json_requests s l h = (h, Return ds) ->
    Forall (fun e => request e <> b) l ->
    access_token s1 = access_token s ->
    json_requests s1 l (<[b := x]> h) = (<[b := x]> h, Return ds).
Proof.
  induction l as [|e l IH]; intros h ds Hds Hne Htok; simpl in *.
  - by injection Hds as <-.
  - apply Forall_cons in Hne as [He Hl].
    rewrite bind_run in Hds. rewrite bind_run. unfold deref in *.
    rewrite lookup_insert_ne by done.
    destruct (h !! request e) as [o|]; [|done].
    rewrite bind_run in Hds. rewrite bind_run.
    destruct (json_requests s l h) as [h1 [ds1|ex]] eqn:Hrec; [|done].
    injection Hds as -> <-.
    rewrite (IH h ds1 Hrec Hl Htok).
    unfold mret, M_ret, request_entity_to_batch_array. by rewrite Htok.
Qed.

Section Prepare.
Variable json_dumps : list (dict item) -> string.

(** The two entries [prepare_batch_request] merges into the params. *)
Definition batch_params (ds : list (dict item)) : dict pyval :=
  [("batch", VStr (json_dumps ds)); ("include_headers", VBool true)].

Lemma batch_params_NoDup ds : NoDup (Dict.keys (batch_params ds)).
Proof.
  apply NoDup_cons. split; [|apply NoDup_singleton].
  by intros [=]%list_elem_of_singleton.
Qed.

Lemma prepare_batch_request_run h b ob l ds :
  h !! b = Some ob -> requests ob = Some l ->
  json_requests ob l h = (h, Return ds) ->
  prepare_batch_request json_dumps b h
  = (<[b := with_params (Dict.update (_params ob) (batch_params ds)) ob]> h,
     Return tt).
Proof.
  intros Hb Hl Hds. unfold prepare_batch_request, requests_to_json.
  rewrite !bind_run, (deref_run _ _ _ Hb), Hl, bind_run, Hds.
  unfold mret, M_ret. by rewrite (modify_run _ _ _ _ Hb).
Qed.

Lemma batch_params_twice p ds :
  Dict.update (Dict.update p (batch_params ds)) (batch_params ds)
  = Dict.update p (batch_params ds).
Proof.
  unfold Dict.update, batch_params. simpl.
  set (d := Dict.set "include_headers" (VBool true)
                     (Dict.set "batch" (VStr (json_dumps ds)) p)).
  assert (Dict.get "batch" d = Some (VStr (json_dumps ds))) as H1.
  { unfold d. rewrite DictFacts.get_set_ne by done. apply DictFacts.get_set_eq. }
  assert (Dict.get "include_headers" d = Some (VBool true)) as H2
    by apply DictFacts.get_set_eq.
  by rewrite (DictMore.set_id _ _ _ H1), (DictMore.set_id _ _ _ H2).
Qed.


(** X7: preparing a batch twice is preparing it once, when the batch is
    not among its own entries: the second call finds the same items and
    stores the same two params. *)
Theorem prepare_batch_request_idempotent
  (h h1 : gmap loc FacebookRequest) (b : loc) (ob : FacebookRequest)
  (l : list entry) :
  h !! b = Some ob -> requests ob = Some l ->
  Forall (fun e => request e <> b) l ->
  prepare_batch_request json_dumps b h = (h1, Return tt) ->
  prepare_batch_request json_dumps b h1 = (h1, Return tt).
Proof.
  intros Hb Hl Hne Hprep.
  destruct (json_requests ob l h) as [h0 [ds|ex]] eqn:Hds.
  - pose proof (json_requests_store _ _ _ _ _ Hds) as ->.
    rewrite (prepare_batch_request_run h b ob l ds Hb Hl Hds) in Hprep.
    injection Hprep as <-.
    set (ob1 := with_params _ ob).
    rewrite (prepare_batch_request_run _ b ob1 l ds).
    + unfold ob1, with_params.
      cbn [_params app access_token method endpoint graph_version headers requests].
      change (Dict.set "include_headers" (VBool true)
                (Dict.set "batch" (VStr (json_dumps ds)) (_params ob)))
        with (Dict.update (_params ob) (batch_params ds)).
      by rewrite batch_params_twice, insert_insert_eq.
    + apply lookup_insert_eq.
    + done.
    + by apply (json_requests_frame b ob1 ob ob1 l h ds Hds Hne).
  - unfold prepare_batch_request, requests_to_json in Hprep.
    rewrite !bind_run, (deref_run _ _ _ Hb), Hl, bind_run, Hds in Hprep.
    discriminate Hprep.
Qed.

(** X8: the prepared batch carries its items in its body. For a batch
    (method POST) the body after [prepare_batch_request] is the form
    encoding of its params, and decoding it gives the field [batch] with
    the serialized items, unchanged whatever characters they hold, and
    the field [include_headers] with [True]. *)
Theorem prepared_batch_body
  (h h1 : gmap loc FacebookRequest) (b : loc) (ob : FacebookRequest)
  (l : list entry) :
  h !! b = Some ob -> requests ob = Some l -> method ob = METHOD_POST ->
  prepare_batch_request json_dumps b h = (h1, Return tt) ->
  exists ob1 ds body,
    h1 !! b = Some ob1
    /\ json_requests ob l h = (h, Return ds)
    /\ url_encode_body ob1 = Some body
    /\ Url.parse_qsl body = map (fun kv => (kv.1, py_str kv.2)) (_params ob1)
    /\ In ("batch", json_dumps ds) (Url.parse_qsl body)
    /\ In ("include_headers", "True") (Url.parse_qsl body).
Proof.
  intros Hb Hl Hm Hprep.
  destruct (json_requests ob l h) as [h0 [ds|ex]] eqn:Hds.
  - pose proof (json_requests_store _ _ _ _ _ Hds) as ->.
    rewrite (prepare_batch_request_run h b ob l ds Hb Hl Hds) in Hprep.
    injection Hprep as <-.
    set (ob1 := with_params (Dict.update (_params ob) (batch_params ds)) ob).
    pose proof (batch_params_NoDup ds) as Hnd.
    assert (Dict.get "batch" (_params ob1) = Some (VStr (json_dumps ds))) as H1
      by (unfold ob1, with_params; cbn [_params];
          by rewrite (DictMore.get_update _ _ _ Hnd)).
    assert (Dict.get "include_headers" (_params ob1) = Some (VBool true)) as H2
      by (unfold ob1, with_params; cbn [_params];
          by rewrite (DictMore.get_update _ _ _ Hnd)).
    assert (_params ob1 <> []) as Hne by (intros E; by rewrite E in H1).
    exists ob1, ds, (Url.urlencode (_params ob1)).
    split; [apply lookup_insert_eq|]. split; [done|].
    split; [by apply url_encode_body_post|].
    rewrite UrlFacts.parse_qsl_urlencode. split; [done|]. split.
    + apply (in_map (fun kv => (kv.1, py_str kv.2)) _ ("batch", VStr (json_dumps ds))).
      by apply DictMore.get_In.
    + apply (in_map (fun kv => (kv.1, py_str kv.2)) _ ("include_headers", VBool true)).
      by apply DictMore.get_In.
  - unfold prepare_batch_request, requests_to_json in Hprep.
    rewrite !bind_run, (deref_run _ _ _ Hb), Hl, bind_run, Hds in Hprep.
    discriminate Hprep.
Qed.

End Prepare.


Lemma a_filled_store_not_self :
  Forall (fun e => request e <> 1%positive)
         [Entry "0" 3%positive; Entry "1" 6%positive].
Proof. by repeat constructor. Qed.


Lemma prepare_batch_request_idempotent_witness :
  prepare_batch_request item_names 1%positive
    (prepare_batch_request item_names 1%positive a_filled_store).1
  = ((prepare_batch_request item_names 1%positive a_filled_store).1, Return tt).
Proof.
  exact (prepare_batch_request_idempotent item_names a_filled_store _ 1%positive
           a_filled_batch _ eq_refl eq_refl a_filled_store_not_self
           (surjective_pairing _)).
Defined.

Lemma prepared_batch_body_witness :
  exists ob1 ds body,
    (prepare_batch_request item_names 1%positive a_filled_store).1 !! 1%positive
    = Some ob1
    /\ json_requests a_filled_batch [Entry "0" 3%positive; Entry "1" 6%positive]
         a_filled_store
       = (a_filled_store, Return ds)
    /\ url_encode_body ob1 = Some body
    /\ Url.parse_qsl body = map (fun kv => (kv.1, py_str kv.2)) (_params ob1)
    /\ In ("batch", item_names ds) (Url.parse_qsl body)
    /\ In ("include_headers", "True") (Url.parse_qsl body).
Proof.
  exact (prepared_batch_body item_names a_filled_store _ 1%positive
           a_filled_batch _ eq_refl eq_refl eq_refl (surjective_pairing _)).
Defined.

(** ** Constructing and validating a batch *)

Lemma validate_batch_request_count_run
  (h : gmap loc FacebookRequest) (b : loc) (ob : FacebookRequest) (l : list entry) :
  h !! b = Some ob -> requests ob = Some l ->
  validate_batch_request_count b h
  = (h, if Nat.eqb (length l) 0
        then Raise (FacebookSDKException "Empty batch requests")
        else if Nat.ltb 50 (length l)
             then Raise (FacebookSDKException "The limit of requests in batch is 50")
             else Return tt).
Proof.
  intros Hb Hl. unfold validate_batch_request_count.
  rewrite bind_run, (deref_run _ _ _ Hb), Hl. unfold MAX_REQUEST_BY_BATCH.
  destruct (Nat.eqb (length l) 0); [done|]. by destruct (Nat.ltb 50 (length l)).
Qed.

Lemma falsy_arg_no_entries (a : arg) (name : pyval) :
  arg_truthy a = false -> entries (leaves a name) = [].
Proof. destruct a as [[|x l]|[|kv d]|r|v]; simpl; done. Qed.

(** X9: a batch that [FacebookBatchRequest.__init__] returns is a new
    object: its location was free, it is a POST request for the empty
    endpoint with the token given and no headers or params, and its
    entries are the requests of the argument, each with a token. No
    object that was there is lost or changed but for tokens that were not
    set. Without requests the batch is empty and does not validate. *)
Theorem batch_init_returns
  (D : string) (ap : option FacebookApp.t) (rs : arg) (tok : pyval)
  (gv : option string) (h h' : gmap loc FacebookRequest) (b : loc) :
  batch_init D ap rs tok gv h = (h', Return b) ->
  h !! b = None
  /\ (exists ob,
        h' !! b = Some ob
        /\ method ob = METHOD_POST /\ endpoint ob = "" /\ access_token ob = tok
        /\ headers ob = [] /\ _params ob = []
        /\ graph_version ob
           = match gv with
             | Some v => if String.eqb v "" then D else v
             | None => D
             end
        /\ requests ob = Some (entries (leaves rs VNone))
        /\ Forall (has_token h') (entries (leaves rs VNone)))
  /\ (forall x o, h !! x = Some o ->
        exists o', h' !! x = Some o' /\ same_fields o o'
                   /\ requests o' = requests o
                   /\ (truthy (access_token o) = true ->
                       access_token o' = access_token o))
  /\ (arg_truthy rs = false ->
      validate_batch_request_count b h'
      = (h', Raise (FacebookSDKException "Empty batch requests"))).
Proof.
  unfold batch_init. rewrite bind_run. unfold alloc.
  set (b0 := fresh (dom h)). set (new := mkRequest _ _ _ _ _ _ _ _).
  assert (h !! b0 = None) as Hfresh by apply not_elem_of_dom, is_fresh.
  set (h0 := <[b0 := new]> h).
  assert (h0 !! b0 = Some new) as Hb0 by apply lookup_insert_eq.
  assert (forall x o, h !! x = Some o -> h0 !! x = Some o /\ x <> b0) as Hold.
  { intros x o Hx. assert (x <> b0) by congruence.
    split; [|done]. unfold h0. by rewrite lookup_insert_ne. }
  intros Hrun.
  assert (exists out,
            (if arg_truthy rs then run_leaves b0 (leaves rs VNone) h0
             else (h0, Return tt)) = (h', out)
            /\ (out = Return tt /\ b = b0)) as (out & Hleaves & -> & ->).
  { destruct (arg_truthy rs).
    - rewrite bind_run, add_leaves in Hrun.
      destruct (run_leaves b0 _ h0) as [h1 [[]|ex]]; [|done].
      injection Hrun as <- <-. eauto.
    - injection Hrun as <- <-. eauto. }
  assert (evolves b0 tok h0 h'
          /\ exists ob, h' !! b0 = Some ob /\ access_token ob = tok
                        /\ requests ob = Some (entries (leaves rs VNone))
                        /\ Forall (has_token h') (entries (leaves rs VNone)))
    as (Hev & ob & Hb' & Htok & Hl' & Hall).
  { destruct (arg_truthy rs) eqn:Htruthy.
    - destruct (run_leaves_any b0 _ h0 h' _ new [] Hleaves Hb0 eq_refl)
        as (Hev & ob & added & Hb' & Htok & Hl' & _ & Hret & Hall).
      rewrite (Hret eq_refl) in Hl', Hall. split; [done|]. by exists ob.
    - injection Hleaves as <-. split; [apply evolves_refl|].
      exists new. rewrite (falsy_arg_no_entries _ _ Htruthy).
      split; [done|]. split; [done|]. split; [done | constructor]. }
  destruct Hev as [Hev _].
  split; [done|]. split; [|split].
  - destruct (Hev b0 new Hb0) as (ob' & Hb'' & Hsame & _).
    rewrite Hb' in Hb''. injection Hb'' as <-.
    destruct Hsame as (_ & Hm & He & Hg & Hh & Hp).
    exists ob. by repeat split.
  - intros x o Hx. destruct (Hold x o Hx) as [Hx0 Hne].
    destruct (Hev x o Hx0) as (o' & Hx' & Hsame & Hkept & Hreq).
    exists o'. split; [done|]. split; [done|]. split; [by apply Hreq|].
    intros Ht. destruct Hkept as [?|(Hf & _)]; congruence.
  - intros Htruthy. rewrite (falsy_arg_no_entries _ _ Htruthy) in Hl'.
    by rewrite (validate_batch_request_count_run h' b0 ob [] Hb' Hl').
Qed.

(** X10: after an [add] that returned, the batch validates exactly when
    the entries it had and the requests the argument holds, nested ones
    included, are between 1 and 50 together; validation does not change
    the store. *)
Theorem validate_after_add
  (h h' : gmap loc FacebookRequest) (b : loc) (ob : FacebookRequest)
  (l : list entry) (a : arg) (name : pyval) :
  add b a name h = (h', Return tt) ->
  h !! b = Some ob -> requests ob = Some l ->
  (validate_batch_request_count b h' = (h', Return tt)
   <-> (1 <= length l + length (entries (leaves a name)) <= 50)%nat)
  /\ (validate_batch_request_count b h').1 = h'.
Proof.
  intros Hadd Hb Hl. rewrite add_leaves in Hadd.
  destruct (run_leaves_any b _ h h' _ ob l Hadd Hb Hl)
    as (_ & ob' & new & Hb' & _ & Hl' & _ & Hret & _).
  rewrite (Hret eq_refl) in Hl'.
  rewrite (validate_batch_request_count_run h' b ob' _ Hb' Hl'), length_app.
  split; [|done].
  destruct (Nat.eqb_spec (length l + length (entries (leaves a name))) 0) as [E|E].
  - split; [done | lia].
  - destruct (Nat.ltb_spec 50 (length l + length (entries (leaves a name)))).
    + split; [done | lia].
    + split; [lia | done].
Qed.

Lemma batch_init_returns_witness :
  a_store !! 7%positive = None
  /\ (exists ob,
        a_constructed_store !! 7%positive = Some ob
        /\ method ob = METHOD_POST /\ endpoint ob = "" /\ access_token ob = VStr "T"
        /\ headers ob = [] /\ _params ob = []
        /\ graph_version ob = "v2.12"
        /\ requests ob = Some [Entry "0" 3%positive; Entry "1" 6%positive]
        /\ Forall (has_token a_constructed_store)
                  [Entry "0" 3%positive; Entry "1" 6%positive])
  /\ (forall x o, a_store !! x = Some o ->
        exists o', a_constructed_store !! x = Some o' /\ same_fields o o'
                   /\ requests o' = requests o
                   /\ (truthy (access_token o) = true ->
                       access_token o' = access_token o))
  /\ (arg_truthy (AList [AReq 3%positive; AReq 6%positive]) = false ->
      validate_batch_request_count 7%positive a_constructed_store
      = (a_constructed_store,
         Raise (FacebookSDKException "Empty batch requests"))).
Proof.
  exact (batch_init_returns "v2.12" None (AList [AReq 3%positive; AReq 6%positive])
           (VStr "T") None a_store a_constructed_store 7%positive
           (surjective_pairing _)).
Defined.

Lemma validate_after_add_witness :
  (validate_batch_request_count 1%positive
     (add 1%positive (AList [AReq 3%positive; AList [AReq 4%positive]]) VNone
          a_store).1
   = ((add 1%positive (AList [AReq 3%positive; AList [AReq 4%positive]]) VNone
           a_store).1, Return tt)
   <-> (1 <= 0 + 2 <= 50)%nat)
  /\ (validate_batch_request_count 1%positive
        (add 1%positive (AList [AReq 3%positive; AList [AReq 4%positive]]) VNone
             a_store).1).1
     = (add 1%positive (AList [AReq 3%positive; AList [AReq 4%positive]]) VNone
            a_store).1.
Proof.
  exact (validate_after_add a_store _ 1%positive (a_batch (VStr "T")) []
           (AList [AReq 3%positive; AList [AReq 4%positive]]) VNone
           (surjective_pairing _) eq_refl eq_refl).
Defined.

(** ** Headers, query params and bodies of a request *)

Lemma set_fresh (k : string) (v : pyval) (d : dict pyval) :
  Dict.get k d = None -> Dict.set k v d = d ++ [(k, v)].
Proof.
  induction d as [|[k' v'] d IH]; simpl; [done|].
  destruct (String.eqb k k'); [done|]. intros H. by rewrite IH.
Qed.

(** X11: [add_headers] merges the mappings in order, the last one that
    has a key deciding its value, and a key none of them has keeping the
    stored value; nothing but the headers changes, and the headers keep
    their keys distinct. *)
Theorem add_headers_last_wins (hs : list (dict pyval)) (self : FacebookRequest) :
  Forall (fun hd => NoDup (Dict.keys hd)) hs ->
  (forall k, Dict.get k (headers (add_headers hs self))
             = last_header k hs (Dict.get k (headers self)))
  /\ (app (add_headers hs self) = app self
      /\ access_token (add_headers hs self) = access_token self
      /\ method (add_headers hs self) = method self
      /\ endpoint (add_headers hs self) = endpoint self
      /\ graph_version (add_headers hs self) = graph_version self
      /\ _params (add_headers hs self) = _params self
      /\ requests (add_headers hs self) = requests self)
  /\ (NoDup (Dict.keys (headers self)) ->
      NoDup (Dict.keys (headers (add_headers hs self)))).
Proof.
  intros Hall. revert self. unfold add_headers, last_header.
  induction Hall as [|hd hs Hhd _ IH]; intros self; simpl; [done|].
  destruct (IH (with_headers (Dict.update (headers self) hd) self))
    as (Hget & Hsame & Hnd).
  split; [|split].
  - intros k. rewrite Hget. simpl. by rewrite DictMore.get_update.
  - exact Hsame.
  - intros Hself. apply Hnd. simpl. by apply DictMore.update_NoDup.
Qed.

Lemma add_headers_last_wins_witness :
  (forall k,
     Dict.get k (headers (add_headers [[("X-Trace", VStr "2")];
                                       [("X-Trace", VStr "3"); ("Host", VStr "g")]]
                                      a_request_with_headers))
     = last_header k [[("X-Trace", VStr "2")];
                      [("X-Trace", VStr "3"); ("Host", VStr "g")]]
                   (Dict.get k (headers a_request_with_headers)))
  /\ headers (add_headers [[("X-Trace", VStr "2")];
                           [("X-Trace", VStr "3"); ("Host", VStr "g")]]
                          a_request_with_headers)
     = [("Accept", VStr "*/*"); ("X-Trace", VStr "3"); ("Host", VStr "g")].
Proof.
  assert (Forall (fun hd : dict pyval => NoDup (Dict.keys hd))
                 [[("X-Trace", VStr "2")];
                  [("X-Trace", VStr "3"); ("Host", VStr "g")]]) as Hall.
  { repeat constructor; simpl; try (by intros [=]%list_elem_of_singleton);
      by intros ?%elem_of_nil. }
  split; [|reflexivity].
  exact (proj1 (add_headers_last_wins _ a_request_with_headers Hall)).
Defined.

(** X12: [params] keeps the keys distinct; and on a request that is not a
    POST, when a token is set and the stored params do not use the key
    [access_token], the token is the last query parameter, after the
    stored ones in their order. *)
Theorem params_keys (self : FacebookRequest) :
  NoDup (Dict.keys (_params self)) ->
  NoDup (Dict.keys (params self))
  /\ (py_eqb (method self) METHOD_POST = false ->
      truthy (access_token self) = true ->
      Dict.get "access_token" (_params self) = None ->
      params self
      = _params self ++ [("access_token", VStr (py_str (access_token self)))]).
Proof.
  intros Hnd. split.
  - unfold params.
    assert (NoDup (Dict.keys (if py_neb (method self) METHOD_POST
                              then Dict.copy (_params self) else []))) as Hbase
      by (destruct (py_neb _ _); [done | constructor]).
    destruct (truthy (access_token self)); [|done].
    by apply DictMore.update_NoDup.
  - intros Hm Ht Hget. rewrite (params_not_post _ Hm), Ht. by apply set_fresh.
Qed.

Lemma params_keys_witness :
  NoDup (Dict.keys (params get_with_token))
  /\ params get_with_token
     = [("fields", VStr "id,name"); ("access_token", VStr "T")].
Proof.
  assert (NoDup (Dict.keys (_params get_with_token))) as Hnd
    by apply NoDup_singleton.
  split.
  - exact (proj1 (params_keys get_with_token Hnd)).
  - exact (proj2 (params_keys get_with_token Hnd) eq_refl eq_refl eq_refl).
Defined.

Lemma url_encode_body_Some (self : FacebookRequest) (s : string) :
  url_encode_body self = Some s -> s = Url.urlencode (_params self).
Proof.
  unfold url_encode_body, post_params, Dict.copy.
  destruct (py_eqb _ _); [|done]. destruct (_params self); [done|].
  by intros [= <-].
Qed.

(** X13: the body tells the params apart. Two requests with the same
    (present) body have the same stored keys, in the same order, with
    values that have the same strings. *)
Theorem url_encode_body_injective (r1 r2 : FacebookRequest) (s : string) :
  url_encode_body r1 = Some s -> url_encode_body r2 = Some s ->
  map (fun kv => (kv.1, py_str kv.2)) (_params r1)
  = map (fun kv => (kv.1, py_str kv.2)) (_params r2).
Proof.
  intros H1%url_encode_body_Some H2%url_encode_body_Some.
  rewrite <- !UrlFacts.parse_qsl_urlencode. congruence.
Qed.

Lemma url_encode_body_injective_witness :
  map (fun kv => (kv.1, py_str kv.2)) (_params post_with_int)
  = map (fun kv => (kv.1, py_str kv.2))
        (_params (with_params [("limit", VStr "10")] post_with_int)).
Proof.
  exact (url_encode_body_injective post_with_int
           (with_params [("limit", VStr "10")] post_with_int) "limit=10"
           eq_refl eq_refl).
Defined.

(** ** The app token and the configuration *)

(** X14: the app token gives back the app: when the id holds no [|],
    splitting the token at its first [|] gives the id and the secret, so
    two apps with such ids and the same token are the same app. *)
Theorem app_access_token_split (a : FacebookApp.t) :
  has_char "|" (FacebookApp.id a) = false ->
  Url.split_first "|" (app_access_token a)
  = Some (FacebookApp.id a, FacebookApp.secret a)
  /\ (forall a', has_char "|" (FacebookApp.id a') = false ->
                 app_access_token a' = app_access_token a -> a' = a).
Proof.
  intros Ha.
  assert (forall x, has_char "|" (FacebookApp.id x) = false ->
                    Url.split_first "|" (app_access_token x)
                    = Some (FacebookApp.id x, FacebookApp.secret x)) as Hsplit.
  { intros x Hx. unfold app_access_token.
    change ("|" +:+ ?s) with (String "|" s). by apply UrlFacts.split_first_app. }
  split; [by apply Hsplit|].
  intros a' Ha' Heq. pose proof (Hsplit a' Ha') as H'.
  rewrite Heq, (Hsplit a Ha) in H'. destruct a, a'. simpl in H'. congruence.
Qed.

Lemma app_access_token_split_witness :
  app_access_token an_app = "1234|s3cr|et"
  /\ Url.split_first "|" (app_access_token an_app) = Some ("1234", "s3cr|et").
Proof.
  split; [reflexivity|].
  exact (proj1 (app_access_token_split an_app eq_refl)).
Defined.

(** X15: where the credentials of [Facebook.__init__] come from. If the
    variable [FACEBOOK_APP_ID] is set and not empty, it is both the app
    id and the app secret of the config, whatever the keyword arguments
    are; if it is set and empty, the missing app id is reported even
    when the arguments give one; if it is not set, the arguments decide:
    the config holds their [app_id] and [app_secret] when both are true
    values, and otherwise the first one that is missing is reported. The
    variable [FACEBOOK_APP_SECRET] is never read. *)
Theorem Facebook_config_credentials
  (D : string) (environ : string -> option string) (kwargs : dict pyval) :
  (forall s, environ APP_ID_ENV_NAME = Some s -> s <> "" ->
     exists config,
       Facebook_config D environ kwargs = Return config
       /\ Dict.get "app_id" config = Some (VStr s)
       /\ Dict.get "app_secret" config = Some (VStr s))
  /\ (environ APP_ID_ENV_NAME = Some "" ->
      Facebook_config D environ kwargs = Raise (FacebookSDKException MISSING_APP_ID))
  /\ (environ APP_ID_ENV_NAME = None ->
      let app_id := kwargs_get kwargs "app_id" VNone in
      let app_secret := kwargs_get kwargs "app_secret" VNone in
      (truthy app_id = false ->
       Facebook_config D environ kwargs
       = Raise (FacebookSDKException MISSING_APP_ID))
      /\ (truthy app_id = true -> truthy app_secret = false ->
          Facebook_config D environ kwargs
          = Raise (FacebookSDKException MISSING_APP_SECRET))
      /\ (truthy app_id = true -> truthy app_secret = true ->
          exists config,
            Facebook_config D environ kwargs = Return config
            /\ Dict.get "app_id" config = Some app_id
            /\ Dict.get "app_secret" config = Some app_secret))
  /\ (forall environ',
        environ' APP_ID_ENV_NAME = environ APP_ID_ENV_NAME ->
        Facebook_config D environ' kwargs = Facebook_config D environ kwargs).
Proof.
  unfold Facebook_config, getenv. split; [|split; [|split]].
  - intros s -> Hs.
    assert (truthy (VStr s) = true) as ->
      by (simpl; by apply negb_true_iff, String.eqb_neq).
    simpl. eauto.
  - by intros ->.
  - intros ->. simpl. split; [|split].
    + by intros ->.
    + by intros -> ->.
    + intros -> ->. simpl. eauto.
  - by intros environ' ->.
Qed.

Lemma Facebook_config_credentials_witness :
  (exists config,
     Facebook_config "v2.12"
       (fun k => if String.eqb k "FACEBOOK_APP_ID" then Some "99" else None)
       some_kwargs = Return config
     /\ Dict.get "app_id" config = Some (VStr "99")
     /\ Dict.get "app_secret" config = Some (VStr "99"))
  /\ Facebook_config "v2.12"
       (fun k => if String.eqb k "FACEBOOK_APP_ID" then Some "" else None)
       some_kwargs = Raise (FacebookSDKException MISSING_APP_ID)
  /\ (exists config,
        Facebook_config "v2.12" (fun _ => None) some_kwargs = Return config
        /\ Dict.get "app_id" config = Some (VStr "1234")
        /\ Dict.get "app_secret" config = Some (VStr "s3cret")).
Proof.
  split; [|split].
  - refine (proj1 (Facebook_config_credentials "v2.12" _ some_kwargs)
              "99" eq_refl _).
    discriminate.
  - exact (proj1 (proj2 (Facebook_config_credentials "v2.12"
             (fun k => if String.eqb k "FACEBOOK_APP_ID" then Some "" else None)
             some_kwargs)) eq_refl).
  - exact (proj2 (proj2 (proj1 (proj2 (proj2
             (Facebook_config_credentials "v2.12" (fun _ => None) some_kwargs)))
             eq_refl)) eq_refl eq_refl).
Defined.

(** ** Every request added, through any argument *)

Lemma appended_evolves b t h h1 ls :
  evolves b t h h1 -> appended h1 t ls = appended h t ls.
Proof.
  intros [Hev Hnone]. induction ls as [|[e|] ls IH]; simpl; [done| |done].
  destruct (h !! request e) as [o|] eqn:Hr.
  - destruct (Hev _ _ Hr) as (o' & -> & _ & Hkept & _).
    destruct Hkept as [->|(_ & Ht & _)]; rewrite IH; [done|].
    by rewrite Ht, !orb_true_r.
  - by rewrite (Hnone _ Hr).
Qed.

Lemma appended_prefix h t ls : appended h t ls `prefix_of` entries ls.
Proof.
  induction ls as [|[e|] ls IH]; simpl; [done| |apply prefix_nil].
  destruct (h !! request e) as [o|]; [|apply prefix_nil].
  destruct (truthy (access_token o) || truthy t); [|apply prefix_nil].
  by apply prefix_cons.
Qed.

Lemma appended_all h t ls :
  expected_outcome h t ls = Return tt -> appended h t ls = entries ls.
Proof.
  induction ls as [|[e|] ls IH]; simpl; [done| |done].
  destruct (h !! request e) as [o|]; [|done].
  destruct (truthy (access_token o) || truthy t); [|done].
  intros H. by rewrite IH.
Qed.

Lemma run_leaves_appended b ls :
  forall h ob l,
    h !! b = Some ob -> requests ob = Some l ->
    exists ob',
      (run_leaves b ls h).1 !! b = Some ob'
      /\ requests ob' = Some (l ++ appended h (access_token ob) ls).
Proof.
  induction ls as [|[e|] ls IH]; intros h ob l Hb Hl; simpl.
  - exists ob. by rewrite app_nil_r.
  - rewrite bind_run.
    destruct (add_one b e h) as [h1 out1] eqn:Hadd.
    destruct (add_one_any b e h h1 out1 ob l Hadd Hb Hl)
      as (Hev & ob1 & Hb1 & Htok1 & Hout1).
    destruct (h !! request e) as [o|] eqn:Hr.
    + rewrite add_one_as_add in Hadd.
      destruct (truthy (access_token o)) eqn:Ht; simpl.
      * rewrite (add_own_token h b _ ob o l _ Hb Hl Hr Ht) in Hadd.
        injection Hadd as <- <-. destruct Hout1 as [Hl1 _].
        destruct (IH _ ob1 _ Hb1 Hl1) as (ob' & Hb' & Hl').
        exists ob'. split; [done|].
        rewrite Hl', Htok1, (appended_evolves _ _ _ _ _ Hev).
        by rewrite <- app_assoc.
      * destruct (truthy (access_token ob)) eqn:Htb.
        -- rewrite (add_batch_token h b _ ob o l _ Hb Hl Hr Ht Htb) in Hadd.
           injection Hadd as <- <-. destruct Hout1 as [Hl1 _].
           destruct (IH _ ob1 _ Hb1 Hl1) as (ob' & Hb' & Hl').
           exists ob'. split; [done|].
           rewrite Hl', Htok1, (appended_evolves _ _ _ _ _ Hev).
           by rewrite <- app_assoc.
        -- rewrite (add_missing_token h b _ ob o _ Hb Hr Ht Htb) in Hadd.
           injection Hadd as <- <-. exists ob. by rewrite app_nil_r.
    + rewrite (add_one_no_object b h e Hr) in Hadd. injection Hadd as <- <-.
      exists ob. by rewrite app_nil_r.
  - exists ob. by rewrite app_nil_r.
Qed.

(** X1: [add] only appends, and what it appends is decided by the store
    it starts in. Whatever the outcome, the batch's list afterwards is
    the list before followed by the requests of the argument met, in
    order, before the first element that fails (one that is neither
    list, dict nor request, or a request without token when the batch has
    none): all the requests of the argument when [add] returns, and
    exactly those met before the failing element when it raises; nothing
    is rolled back. *)
Theorem add_only_appends
  (h h' : gmap loc FacebookRequest) (out : outcome unit) (b : loc)
  (ob : FacebookRequest) (l : list entry) (a : arg) (name : pyval) :
  add b a name h = (h', out) ->
  h !! b = Some ob -> requests ob = Some l ->
  exists ob',
    h' !! b = Some ob'
    /\ requests ob' = Some (l ++ appended h (access_token ob) (leaves a name))
    /\ appended h (access_token ob) (leaves a name) `prefix_of` entries (leaves a name)
    /\ (out = Return tt ->
        appended h (access_token ob) (leaves a name) = entries (leaves a name)).
Proof.
  intros Hadd Hb Hl.
  destruct (run_leaves_appended b (leaves a name) h ob l Hb Hl) as (ob' & Hb' & Hl').
  rewrite <- add_leaves, Hadd in Hb'. simpl in Hb'.
  exists ob'. split; [done|]. split; [done|]. split; [apply appended_prefix|].
  intros ->. apply appended_all.
  rewrite <- (run_leaves_outcome b _ h ob l Hb Hl), <- add_leaves. by rewrite Hadd.
Qed.

Lemma add_only_appends_witness :
  (add 1%positive a_bad_list VNone a_store).2
  = Raise (FacebookSDKException BAD_ARGUMENT)
  /\ exists ob',
       (add 1%positive a_bad_list VNone a_store).1 !! 1%positive = Some ob'
       /\ requests ob' = Some ([] ++ [Entry "0" 3%positive])
       /\ [Entry "0" 3%positive]
          `prefix_of` [Entry "0" 3%positive; Entry "2" 4%positive]
       /\ ((add 1%positive a_bad_list VNone a_store).2 = Return tt ->
           [Entry "0" 3%positive]
           = [Entry "0" 3%positive; Entry "2" 4%positive]).
Proof.
  split; [reflexivity|].
  exact (add_only_appends a_store _ _ 1%positive (a_batch (VStr "T")) []
           a_bad_list VNone (surjective_pairing _) eq_refl eq_refl).
Defined.

Lemma expected_outcome_missing h t ls e o :
  e ∈ entries ls -> h !! request e = Some o ->
  truthy (access_token o) = false -> truthy t = false ->
  (exists ex, expected_outcome h t ls = Raise ex)
  /\ (Forall (fun e => is_Some (h !! request e)) (entries ls) ->
      exists msg, expected_outcome h t ls = Raise (FacebookSDKException msg)).
Proof.
  intros Hin Hr Ht Htb. induction ls as [|[e1|] ls IH]; simpl in *.
  - by apply elem_of_nil in Hin.
  - destruct (h !! request e1) as [o1|] eqn:Hr1.
    + destruct (truthy (access_token o1) || truthy t) eqn:Hres; [|eauto].
      apply elem_of_cons in Hin as [->|Hin].
      * rewrite Hr in Hr1. injection Hr1 as <-. by rewrite Ht, Htb in Hres.
      * destruct (IH Hin) as [H1 H2]. split; [done|].
        intros Hall. apply H2. by apply Forall_cons in Hall as [_ ?].
    + split; [eauto|]. intros Hall. apply Forall_cons in Hall as [[? ?] _].
      congruence.
  - eauto.
Qed.

(** C1: a request or batch has an access token when its [access_token] is
    true under Python's truth test, the test [_add_access_token] applies
    ([None] and the empty string are not tokens). For every request that
    [add] appends, through a list, a dict, nested ones or alone: if it had
    no token, the batch has one and the request has the batch's token
    afterwards. If neither has one, [add] does not return, it raises the
    SDK exception (when the requests of the argument are all in the store,
    as they are in Python), and no entry for that request is appended.
    For a request given alone the resulting store is stated in full. *)
Theorem add_resolves_access_token
  (h : gmap loc FacebookRequest) (b : loc) (ob : FacebookRequest) (l : list entry) :
  h !! b = Some ob -> requests ob = Some l ->
  (forall (a : arg) (name : pyval) h' out,
     add b a name h = (h', out) ->
     exists ob' new,
       h' !! b = Some ob'
       /\ requests ob' = Some (l ++ new)
       /\ (out = Return tt -> new = entries (leaves a name))
       /\ (forall e o,
             e ∈ new -> h !! request e = Some o ->
             truthy (access_token o) = false ->
             truthy (access_token ob) = true
             /\ exists o', h' !! request e = Some o'
                           /\ access_token o' = access_token ob)
       /\ (truthy (access_token ob) = false ->
           forall e o,
             e ∈ entries (leaves a name) -> h !! request e = Some o ->
             truthy (access_token o) = false ->
             (exists ex, out = Raise ex)
             /\ (Forall (fun e => is_Some (h !! request e)) (entries (leaves a name)) ->
                 exists msg, out = Raise (FacebookSDKException msg))
             /\ (forall e', e' ∈ new -> request e' <> request e)))
  /\ (forall (r : loc) (o : FacebookRequest) (name : pyval),
        h !! r = Some o -> truthy (access_token o) = false ->
        (truthy (access_token ob) = true ->
           exists h' o' ob',
             add b (AReq r) name h = (h', Return tt)
             /\ h' !! r = Some o' /\ access_token o' = access_token ob
             /\ h' !! b = Some ob'
             /\ requests ob' = Some (l ++ [Entry (py_str name) r]))
        /\ (truthy (access_token ob) = false ->
            add b (AReq r) name h = (h, Raise (FacebookSDKException MISSING_TOKEN)))).
Proof.
  intros Hb Hl. split.
  - intros a name h' out Hadd.
    pose proof (run_leaves_outcome b (leaves a name) h ob l Hb Hl) as Hout.
    rewrite <- add_leaves, Hadd in Hout. simpl in Hout.
    rewrite add_leaves in Hadd.
    destruct (run_leaves_any b _ h h' out ob l Hadd Hb Hl)
      as ([Hev _] & ob' & new & Hb' & _ & Hl' & _ & Hret & Hhas).
    exists ob', new. split; [done|]. split; [done|]. split; [done|].
    assert (forall e o, e ∈ new -> h !! request e = Some o ->
              exists o', h' !! request e = Some o'
                         /\ truthy (access_token o') = true
                         /\ token_kept (access_token ob) o o') as Hnew.
    { intros e o Hin Hr. rewrite Forall_forall in Hhas.
      destruct (Hhas e Hin) as (o' & Hr' & Ht').
      destruct (Hev _ _ Hr) as (o'' & Hr'' & _ & Hkept & _).
      rewrite Hr' in Hr''. injection Hr'' as <-. eauto. }
    split.
    + intros e o Hin Hr Ht.
      destruct (Hnew e o Hin Hr) as (o' & Hr' & Ht' & [Heq|(_ & Htb & Heq)]).
      * rewrite Heq in Ht'. congruence.
      * split; [done|]. eauto.
    + intros Htb e o Hin Hr Ht.
      destruct (expected_outcome_missing h _ _ e o Hin Hr Ht Htb) as [H1 H2].
      rewrite <- Hout in H1, H2. split; [done|]. split; [done|].
      intros e' Hin' Heq. rewrite <- Heq in Hr.
      destruct (Hnew e' o Hin' Hr) as (o' & _ & Ht' & [Hk|(_ & Htb' & _)]).
      * rewrite Hk in Ht'. congruence.
      * congruence.
  - intros r o name Hr Ht. split.
    + intros Htb.
      exists (resolved_store h b r ob o l name),
        (with_access_token (access_token ob) o),
        (with_requests (Some (l ++ [Entry (py_str name) r])) ob).
      split; [by apply add_batch_token|].
      split; [apply resolved_store_request; by eapply falsy_truthy_distinct|].
      split; [done|]. split; [apply resolved_store_batch | done].
    + intros Htb. by eapply add_missing_token.
Qed.

Lemma add_resolves_access_token_witness :
  ((add 1%positive (AList [AReq 3%positive; AReq 6%positive]) VNone a_store).2
   = Return tt
   /\ exists o',
        (add 1%positive (AList [AReq 3%positive; AReq 6%positive]) VNone a_store).1
          !! 3%positive = Some o'
        /\ access_token o' = VStr "T")
  /\ ((exists msg,
         (add 2%positive (ADict [(VStr "a", AReq 6%positive); (VStr "b", AReq 3%positive)])
              VNone a_store).2
         = Raise (FacebookSDKException msg))
      /\ exists ob' new,
           (add 2%positive
                (ADict [(VStr "a", AReq 6%positive); (VStr "b", AReq 3%positive)])
                VNone a_store).1 !! 2%positive = Some ob'
           /\ requests ob' = Some ([] ++ new)
           /\ forall e', e' ∈ new -> request e' <> 3%positive)
  /\ (exists h' o' ob',
        add 1%positive (AReq 3%positive) VNone a_store = (h', Return tt)
        /\ h' !! 3%positive = Some o' /\ access_token o' = VStr "T"
        /\ h' !! 1%positive = Some ob'
        /\ requests ob' = Some [Entry "None" 3%positive])
  /\ add 2%positive (AReq 3%positive) VNone a_store
     = (a_store, Raise (FacebookSDKException MISSING_TOKEN)).
Proof.
  pose proof (add_resolves_access_token a_store 1%positive (a_batch (VStr "T")) []
                eq_refl eq_refl) as [Hany1 Hone1].
  pose proof (add_resolves_access_token a_store 2%positive (a_batch VNone) []
                eq_refl eq_refl) as [Hany2 Hone2].
  split; [|split; [|split]].
  - split; [reflexivity|].
    destruct (Hany1 (AList [AReq 3%positive; AReq 6%positive]) VNone _ _
                (surjective_pairing _))
      as (ob' & new & _ & _ & Hret & Hres & _).
    specialize (Hret eq_refl). subst new.
    destruct (Hres (Entry "0" 3%positive) (a_request VNone METHOD_GET [])
                (list_elem_of_here _ _) eq_refl eq_refl) as [_ Ho'].
    exact Ho'.
  - destruct (Hany2 (ADict [(VStr "a", AReq 6%positive); (VStr "b", AReq 3%positive)])
                VNone _ _ (surjective_pairing _))
      as (ob' & new & Hb' & Hl' & _ & _ & Hmiss).
    destruct (Hmiss eq_refl (Entry "b" 3%positive) (a_request VNone METHOD_GET [])
                (list_elem_of_further _ _ _ (list_elem_of_here _ _)) eq_refl eq_refl)
      as (_ & Hmsg & Hnot).
    split.
    + apply Hmsg. repeat constructor; by eexists.
    + exists ob', new. split; [exact Hb'|]. split; [exact Hl'|]. exact Hnot.
  - exact (proj1 (Hone1 3%positive (a_request VNone METHOD_GET []) VNone
                    eq_refl eq_refl) eq_refl).
  - exact (proj2 (Hone2 3%positive (a_request VNone METHOD_GET []) VNone
                    eq_refl eq_refl) eq_refl).
Defined.

(** ** Tokens that are not set are all alike *)

Lemma obj_alike_refl o : obj_alike o o.
Proof. split; [apply same_fields_refl|]. split; [done | by left]. Qed.

Lemma token_alike_truthy o o0 :
  token_alike o o0 -> truthy (access_token o0) = truthy (access_token o).
Proof. intros [->|[-> ->]]; done. Qed.

Lemma token_alike_eq o o0 :
  token_alike o o0 -> truthy (access_token o) = true ->
  access_token o0 = access_token o.
Proof. intros [->|[? ?]] ?; [done | congruence]. Qed.

Lemma alike_insert h h0 x o o0 :
  alike h h0 -> obj_alike o o0 -> alike (<[x := o]> h) (<[x := o0]> h0).
Proof.
  intros Hh Ho y. destruct (decide (y = x)) as [->|Hne].
  - by rewrite !lookup_insert_eq.
  - rewrite !lookup_insert_ne by done. apply Hh.
Qed.

Lemma alike_lookup h h0 x o :
  alike h h0 -> h !! x = Some o -> exists o0, h0 !! x = Some o0 /\ obj_alike o o0.
Proof.
  intros Hh Hx. specialize (Hh x). rewrite Hx in Hh.
  destruct (h0 !! x) as [o0|]; [eauto | done].
Qed.

Lemma alike_lookup_None h h0 x : alike h h0 -> h !! x = None -> h0 !! x = None.
Proof.
  intros Hh Hx. specialize (Hh x). rewrite Hx in Hh.
  by destruct (h0 !! x).
Qed.

Lemma add_one_alike b e h h0 ob l :
  alike h h0 -> h !! b = Some ob -> requests ob = Some l ->
  (add_one b e h).2 = (add_one b e h0).2
  /\ alike (add_one b e h).1 (add_one b e h0).1.
Proof.
  intros Hh Hb Hl.
  destruct (alike_lookup _ _ _ _ Hh Hb) as (ob0 & Hb0 & Hsb & Hrb & Htb).
  assert (requests ob0 = Some l) as Hl0 by congruence.
  destruct (h !! request e) as [o|] eqn:Hr.
  - destruct (alike_lookup _ _ _ _ Hh Hr) as (o0 & Hr0 & Hso & Hro & Hto).
    rewrite !add_one_as_add.
    destruct (truthy (access_token o)) eqn:Ht.
    + assert (truthy (access_token o0) = true) as Ht0
        by (by rewrite (token_alike_truthy _ _ Hto)).
      rewrite (add_own_token h b _ ob o l _ Hb Hl Hr Ht),
        (add_own_token h0 b _ ob0 o0 l _ Hb0 Hl0 Hr0 Ht0).
      split; [done|]. apply alike_insert; [done|].
      split; [done|]. split; [done | done].
    + assert (truthy (access_token o0) = false) as Ht0
        by (by rewrite (token_alike_truthy _ _ Hto)).
      destruct (truthy (access_token ob)) eqn:Htob.
      * assert (truthy (access_token ob0) = true) as Htob0
          by (by rewrite (token_alike_truthy _ _ Htb)).
        rewrite (add_batch_token h b _ ob o l _ Hb Hl Hr Ht Htob),
          (add_batch_token h0 b _ ob0 o0 l _ Hb0 Hl0 Hr0 Ht0 Htob0).
        split; [done|]. unfold resolved_store.
        apply alike_insert; [apply alike_insert; [done|]|].
        -- split; [done|]. split; [done|]. left. simpl.
           symmetry. by apply token_alike_eq.
        -- split; [done|]. split; [done | done].
      * assert (truthy (access_token ob0) = false) as Htob0
          by (by rewrite (token_alike_truthy _ _ Htb)).
        by rewrite (add_missing_token h b _ ob o _ Hb Hr Ht Htob),
          (add_missing_token h0 b _ ob0 o0 _ Hb0 Hr0 Ht0 Htob0).
  - pose proof (alike_lookup_None _ _ _ Hh Hr) as Hr0.
    by rewrite (add_one_no_object b h e Hr), (add_one_no_object b h0 e Hr0).
Qed.

Lemma run_leaves_alike b ls :
  forall h h0 ob l,
    alike h h0 -> h !! b = Some ob -> requests ob = Some l ->
    (run_leaves b ls h).2 = (run_leaves b ls h0).2
    /\ alike (run_leaves b ls h).1 (run_leaves b ls h0).1.
Proof.
  induction ls as [|[e|] ls IH]; intros h h0 ob l Hh Hb Hl; simpl; [done| |done].
  rewrite !bind_run.
  destruct (add_one_alike b e h h0 ob l Hh Hb Hl) as [Hout Hst].
  destruct (add_one b e h) as [h1 out1] eqn:Hadd.
  destruct (add_one b e h0) as [h01 out01]. simpl in Hout, Hst. subst out01.
  destruct out1 as [[]|ex]; [|done].
  destruct (add_one_any b e h h1 _ ob l Hadd Hb Hl)
    as (_ & ob1 & Hb1 & _ & Hl1 & _).
  by eapply IH.
Qed.

(** C10: a request whose token is false under Python's truth test (the
    empty string, [None], [0], [False]) is treated by [add] as one without
    token, through a list, a dict, nested ones or alone. [add] has the
    same outcome, and leaves stores that differ at most in tokens that are
    not set, as for the same request with token [None]. Every request
    that [add] appends has a true token afterwards, so never the empty
    string, and it is the batch's when the request is that one. When the
    batch's token is false as well, [add] of an argument that holds the
    request does not return, it raises the SDK exception (when the
    requests of the argument are all in the store), and appends no entry
    for it. For the request given alone the resulting stores are stated
    in full. *)
Theorem add_falsy_token_like_none
  (h : gmap loc FacebookRequest) (b r : loc) (ob o : FacebookRequest)
  (l : list entry) :
  h !! b = Some ob -> requests ob = Some l ->
  h !! r = Some o -> truthy (access_token o) = false ->
  let h0 := <[r := with_access_token VNone o]> h in
  (forall (a : arg) (name : pyval),
     (add b a name h).2 = (add b a name h0).2
     /\ alike (add b a name h).1 (add b a name h0).1
     /\ exists ob' new,
          (add b a name h).1 !! b = Some ob'
          /\ requests ob' = Some (l ++ new)
          /\ ((add b a name h).2 = Return tt -> new = entries (leaves a name))
          /\ (forall e, e ∈ new ->
                exists o', (add b a name h).1 !! request e = Some o'
                           /\ truthy (access_token o') = true
                           /\ access_token o' <> VStr ""
                           /\ (request e = r ->
                               truthy (access_token ob) = true
                               /\ access_token o' = access_token ob))
          /\ (truthy (access_token ob) = false ->
              (forall e, e ∈ entries (leaves a name) -> request e = r ->
                 (exists ex, (add b a name h).2 = Raise ex)
                 /\ (Forall (fun e => is_Some (h !! request e))
                            (entries (leaves a name)) ->
                     exists msg,
                       (add b a name h).2 = Raise (FacebookSDKException msg)))
              /\ (forall e, e ∈ new -> request e <> r)))
  /\ (forall name : pyval,
        (truthy (access_token ob) = true ->
           add b (AReq r) name h = (resolved_store h b r ob o l name, Return tt)
           /\ add b (AReq r) name h0 = (resolved_store h b r ob o l name, Return tt)
           /\ resolved_store h b r ob o l name !! r
              = Some (with_access_token (access_token ob) o))
        /\ (truthy (access_token ob) = false ->
            add b (AReq r) name h = (h, Raise (FacebookSDKException MISSING_TOKEN))
            /\ add b (AReq r) name h0
               = (h0, Raise (FacebookSDKException MISSING_TOKEN)))
        /\ (forall h', add b (AReq r) name h = (h', Return tt) ->
              exists o', h' !! r = Some o'
                         /\ truthy (access_token o') = true
                         /\ access_token o' <> VStr "")).
Proof.
  intros Hb Hl Hr Ht h0.
  assert (h0 !! r = Some (with_access_token VNone o)) as Hr0
    by (unfold h0; by rewrite lookup_insert_eq).
  assert (alike h h0) as Hh.
  { intros x. unfold h0. destruct (decide (x = r)) as [->|Hne].
    - rewrite lookup_insert_eq, Hr. split; [by repeat split|].
      split; [done|]. by right.
    - rewrite lookup_insert_ne by done.
      destruct (h !! x); [apply obj_alike_refl | done]. }
  split.
  - intros a name.
    destruct (run_leaves_alike b (leaves a name) h h0 ob l Hh Hb Hl) as [Hout Hst].
    rewrite <- !add_leaves in Hout, Hst. split; [done|]. split; [done|].
    pose proof (run_leaves_outcome b (leaves a name) h ob l Hb Hl) as Hexp.
    rewrite <- add_leaves in Hexp.
    destruct (add b a name h) as [h' out] eqn:Hadd. simpl in *.
    rewrite add_leaves in Hadd.
    destruct (run_leaves_any b _ h h' out ob l Hadd Hb Hl)
      as ([Hev Hnone] & ob' & new & Hb' & _ & Hl' & _ & Hret & Hhas).
    rewrite Forall_forall in Hhas.
    exists ob', new. split; [done|]. split; [done|]. split; [done|]. split.
    + intros e Hin. destruct (Hhas e Hin) as (o' & Hr' & Ht').
      exists o'. split; [done|]. split; [done|].
      split; [by apply truthy_not_empty|].
      intros Heq. rewrite Heq in Hr'.
      destruct (Hev _ _ Hr) as (o'' & Hr'' & _ & Hkept & _).
      rewrite Hr' in Hr''. injection Hr'' as <-.
      destruct Hkept as [Hk|(_ & Htb & Hk)]; [|done].
      rewrite Hk in Ht'. congruence.
    + intros Htb. split.
      * intros e Hin Heq. rewrite <- Heq in Hr.
        destruct (expected_outcome_missing h _ _ e o Hin Hr Ht Htb) as [H1 H2].
        by rewrite <- Hexp in H1, H2.
      * intros e Hin Heq. destruct (Hhas e Hin) as (o' & Hr' & Ht').
        rewrite Heq in Hr'.
        destruct (Hev _ _ Hr) as (o'' & Hr'' & _ & Hkept & _).
        rewrite Hr' in Hr''. injection Hr'' as <-.
        destruct Hkept as [Hk|(_ & Htb' & _)]; [|congruence].
        rewrite Hk in Ht'. congruence.
  - intros name.
    assert (truthy (access_token ob) = true ->
            add b (AReq r) name h = (resolved_store h b r ob o l name, Return tt)
            /\ resolved_store h b r ob o l name !! r
               = Some (with_access_token (access_token ob) o)) as Hset.
    { intros Htb. split; [by apply add_batch_token|].
      apply resolved_store_request. by eapply falsy_truthy_distinct. }
    split; [|split].
    + intros Htb. destruct (Hset Htb) as [Hadd Hlook].
      split; [done|]. split; [|done].
      assert (r <> b) as Hne by (by eapply falsy_truthy_distinct).
      assert (h0 !! b = Some ob) as Hb0
        by (unfold h0; by rewrite lookup_insert_ne).
      rewrite (add_batch_token h0 b r ob _ l name Hb0 Hl Hr0 eq_refl Htb).
      unfold resolved_store, h0. by rewrite insert_insert_eq.
    + intros Htb. split; [by eapply add_missing_token|].
      destruct (decide (r = b)) as [->|Hne].
      * eapply add_missing_token; eauto.
      * eapply add_missing_token; eauto.
        unfold h0. by rewrite lookup_insert_ne.
    + intros h' Hadd. destruct (truthy (access_token ob)) eqn:Htb.
      * destruct (Hset eq_refl) as [Hadd' Hlook].
        rewrite Hadd' in Hadd. injection Hadd as <-.
        eexists. split; [exact Hlook|]. simpl.
        split; [done|]. by apply truthy_not_empty.
      * rewrite (add_missing_token h b r ob o name Hb Hr Ht Htb) in Hadd.
        discriminate Hadd.
Qed.

Lemma add_falsy_token_like_none_witness :
  let h0 := <[5%positive := with_access_token VNone (a_request (VStr "") METHOD_DELETE [])]>
              a_store in
  ((add 1%positive (AList [AReq 6%positive; AReq 5%positive]) VNone a_store).2
   = Return tt
   /\ (add 1%positive (AList [AReq 6%positive; AReq 5%positive]) VNone h0).2
      = Return tt
   /\ exists o',
        (add 1%positive (AList [AReq 6%positive; AReq 5%positive]) VNone a_store).1
          !! 5%positive = Some o'
        /\ truthy (access_token o') = true
        /\ access_token o' <> VStr ""
        /\ access_token o' = VStr "T")
  /\ ((exists msg,
         (add 2%positive (AList [AReq 5%positive]) VNone a_store).2
         = Raise (FacebookSDKException msg))
      /\ (add 2%positive (AList [AReq 5%positive]) VNone a_store).2
         = (add 2%positive (AList [AReq 5%positive]) VNone h0).2)
  /\ (add 1%positive (AReq 5%positive) (VStr "del") a_store
      = (resolved_store a_store 1%positive 5%positive (a_batch (VStr "T"))
           (a_request (VStr "") METHOD_DELETE []) [] (VStr "del"), Return tt)
      /\ add 1%positive (AReq 5%positive) (VStr "del") h0
         = (resolved_store a_store 1%positive 5%positive (a_batch (VStr "T"))
              (a_request (VStr "") METHOD_DELETE []) [] (VStr "del"), Return tt)
      /\ resolved_store a_store 1%positive 5%positive (a_batch (VStr "T"))
           (a_request (VStr "") METHOD_DELETE []) [] (VStr "del") !! 5%positive
         = Some (a_request (VStr "T") METHOD_DELETE []))
  /\ (add 2%positive (AReq 5%positive) (VStr "del") a_store
      = (a_store, Raise (FacebookSDKException MISSING_TOKEN))
      /\ add 2%positive (AReq 5%positive) (VStr "del") h0
         = (h0, Raise (FacebookSDKException MISSING_TOKEN))).
Proof.
  intros h0.
  pose proof (add_falsy_token_like_none a_store 1%positive 5%positive
                (a_batch (VStr "T")) (a_request (VStr "") METHOD_DELETE []) []
                eq_refl eq_refl eq_refl eq_refl) as [Hany1 Hone1].
  pose proof (add_falsy_token_like_none a_store 2%positive 5%positive
                (a_batch VNone) (a_request (VStr "") METHOD_DELETE []) []
                eq_refl eq_refl eq_refl eq_refl) as [Hany2 Hone2].
  split; [|split; [|split]].
  - destruct (Hany1 (AList [AReq 6%positive; AReq 5%positive]) VNone)
      as (Hout & _ & ob' & new & _ & _ & Hret & Hnew & _).
    split; [reflexivity|]. split; [exact (eq_trans (eq_sym Hout) eq_refl)|].
    specialize (Hret eq_refl). subst new.
    destruct (Hnew (Entry "1" 5%positive)
                (list_elem_of_further _ _ _ (list_elem_of_here _ _)))
      as (o' & Ho' & Ht' & Hne' & Hr').
    exists o'. split; [exact Ho'|]. split; [exact Ht'|]. split; [exact Hne'|].
    exact (proj2 (Hr' eq_refl)).
  - destruct (Hany2 (AList [AReq 5%positive]) VNone)
      as (Hout & _ & ob' & new & _ & _ & _ & _ & Hmiss).
    split; [|exact Hout].
    destruct (proj1 (Hmiss eq_refl) (Entry "0" 5%positive)
                (list_elem_of_here _ _) eq_refl) as [_ Hmsg].
    apply Hmsg. repeat constructor; by eexists.
  - exact (proj1 (Hone1 (VStr "del")) eq_refl).
  - exact (proj1 (proj2 (Hone2 (VStr "del"))) eq_refl).
Defined.
